(** * The Unsplash tool server (src/index.ts): handlers and dispatcher

    A shallow embedding of the request dispatcher and of the four tool
    handlers of [UnsplashServer], followed by the properties stated for them.

    The handlers take [args: any]; their arguments and the provider's decoded
    responses are therefore JavaScript values ([jsval]).  The collaborators
    that are not part of the repository (the unsplash-js client, node-fetch,
    [fs], [path], the engine's error texts) are gathered in one record,
    [Env], over which every definition and theorem is parametric.  Effects
    are explicit: a handler is a function from a [World] (file system and
    chronological call log) to an envelope and the next [World]. *)

From Stdlib Require Import ZArith String Ascii List Bool DecimalString.
From Stdlib.Strings Require Import Byte.
From stdpp Require Import base tactics option list gmap strings.

Set Warnings "-register-all".

Open Scope string_scope.
Open Scope Z_scope.

(** ** JavaScript values *)

(** Numbers are the integer-valued ones and [NaN]; fractions and infinities
    are left out. *)
Inductive number : Type :=
| Int (z : Z)
| NaN.

(** [JObj] lists the own enumerable properties in enumeration order.  [JFun]
    is a built-in function object, met only when a read reaches a prototype
    method. *)
Inductive jsval : Type :=
| JUndefined
| JNull
| JBool (b : bool)
| JNum (n : number)
| JStr (s : string)
| JArr (elems : list jsval)
| JObj (props : list (string * jsval))
| JFun (name : string).

Definition nullish (v : jsval) : bool :=
  match v with
  | JUndefined | JNull => true
  | _ => false
  end.

(** ToBoolean, as used by [!v], [if (v)] and [||]. *)
Definition truthy (v : jsval) : bool :=
  match v with
  | JUndefined | JNull => false
  | JBool b => b
  | JNum (Int z) => negb (z =? 0)
  | JNum NaN => false
  | JStr s => negb (String.eqb s EmptyString)
  | JArr _ | JObj _ | JFun _ => true
  end.

(** [typeof v === 'string'] *)
Definition is_string (v : jsval) : bool :=
  match v with
  | JStr _ => true
  | _ => false
  end.

(** [v === 'lit'] for a string literal. *)
Definition strict_eq_str (v : jsval) (lit : string) : bool :=
  match v with
  | JStr s => String.eqb s lit
  | _ => false
  end.

Definition Array_isArray (v : jsval) : bool :=
  match v with
  | JArr _ => true
  | _ => false
  end.

Fixpoint lookup_prop (k : string) (ps : list (string * jsval)) : jsval :=
  match ps with
  | [] => JUndefined
  | (k', v) :: r => if String.eqb k' k then v else lookup_prop k r
  end.

(** The value of [v.k] for a receiver that is not null or undefined, for the
    property names the handlers read.  A read on a primitive or on an array
    goes to its prototype: of those names only [small] is inherited by
    strings (String.prototype.small) and only [name] is carried by function
    objects. *)
Definition prop (v : jsval) (k : string) : jsval :=
  match v with
  | JObj ps => lookup_prop k ps
  | JStr _ => if String.eqb k "small" then JFun "small" else JUndefined
  | JFun n => if String.eqb k "name" then JStr n else JUndefined
  | _ => JUndefined
  end.

(** A destructuring default, [{ k = d }]: taken only when the property is
    [undefined]. *)
Definition with_default (v d : jsval) : jsval :=
  match v with
  | JUndefined => d
  | _ => v
  end.

(** ** Rendering values as text *)

Definition Z_to_string (z : Z) : string :=
  NilZero.string_of_int (Z.to_int z).

Definition number_to_string (n : number) : string :=
  match n with
  | Int z => Z_to_string z
  | NaN => "NaN"
  end.

(** [Array.prototype.join] over strings. *)
Definition join (sep : string) (l : list string) : string :=
  String.concat sep l.

(** [String(v)] *)
Fixpoint JS_String (v : jsval) : string :=
  match v with
  | JUndefined => "undefined"
  | JNull => "null"
  | JBool true => "true"
  | JBool false => "false"
  | JNum n => number_to_string n
  | JStr s => s
  | JArr l =>
      join "," (map (fun e => if nullish e then EmptyString else JS_String e) l)
  | JObj _ => "[object Object]"
  | JFun n => "function " ++ n ++ "() { [native code] }"
  end.

Definition hex_digit (n : N) : ascii :=
  if (n <? 10)%N then ascii_of_N (48 + n) else ascii_of_N (87 + n).

Definition dquote : string := String (ascii_of_N 34) EmptyString.
Definition backslash : string := String (ascii_of_N 92) EmptyString.
Definition newline : string := String (ascii_of_N 10) EmptyString.

(** One code unit inside a JSON string literal (QuoteJSONString): the quote
    and the backslash are escaped, control characters use their short escape
    or a four-digit lower-case unicode escape. *)
Definition quote_char (c : ascii) : string :=
  let n := N_of_ascii c in
  if (n =? 34)%N then backslash ++ dquote
  else if (n =? 92)%N then backslash ++ backslash
  else if (n =? 8)%N then backslash ++ "b"
  else if (n =? 9)%N then backslash ++ "t"
  else if (n =? 10)%N then backslash ++ "n"
  else if (n =? 12)%N then backslash ++ "f"
  else if (n =? 13)%N then backslash ++ "r"
  else if (n <? 32)%N then
    backslash ++ "u00" ++ String (hex_digit (n / 16)) (String (hex_digit (n mod 16)) EmptyString)
  else String c EmptyString.

Fixpoint quote_chars (s : string) : string :=
  match s with
  | EmptyString => EmptyString
  | String c r => quote_char c ++ quote_chars r
  end.

Definition QuoteJSONString (s : string) : string :=
  dquote ++ quote_chars s ++ dquote.

(** The indentation unit of [JSON.stringify(v, null, 2)]. *)
Definition gap : string := "  ".

(** A non-empty list of already serialized members between two brackets,
    one member per line at the inner indentation. *)
Definition wrap_members (opening closing indent : string) (partial : list string) : string :=
  match partial with
  | [] => opening ++ closing
  | _ =>
      let inner := indent ++ gap in
      opening ++ newline ++ inner
        ++ join ("," ++ newline ++ inner) partial
        ++ newline ++ indent ++ closing
  end.

(** SerializeJSONProperty: [None] stands for [undefined], which drops a
    property from an object and prints as [null] inside an array. *)
Fixpoint SerializeJSONProperty (indent : string) (v : jsval) {struct v} : option string :=
  match v with
  | JUndefined | JFun _ => None
  | JNull => Some "null"
  | JBool true => Some "true"
  | JBool false => Some "false"
  | JNum (Int z) => Some (Z_to_string z)
  | JNum NaN => Some "null"
  | JStr s => Some (QuoteJSONString s)
  | JArr l =>
      let partial :=
        map (fun e => match SerializeJSONProperty (indent ++ gap) e with
                      | Some s => s
                      | None => "null"
                      end) l in
      Some (wrap_members "[" "]" indent partial)
  | JObj ps =>
      let partial :=
        (fix members (ps : list (string * jsval)) : list string :=
           match ps with
           | [] => []
           | (k, x) :: r =>
               match SerializeJSONProperty (indent ++ gap) x with
               | Some s => (QuoteJSONString k ++ ": " ++ s) :: members r
               | None => members r
               end
           end) ps in
      Some (wrap_members "{" "}" indent partial)
  end.

(** [JSON.stringify(o, null, 2)] for an object literal [o]; every call in the
    source has this form. *)
Definition JSON_stringify (o : list (string * jsval)) : string :=
  match SerializeJSONProperty EmptyString (JObj o) with
  | Some s => s
  | None => EmptyString
  end.


(** ** Exceptions and settled promises *)

(** What a [throw] or a rejected promise carries: an instance of [Error] with
    its message, or any other value. *)
Inductive Thrown : Type :=
| ThrowError (message : string)
| ThrowValue (v : jsval).

(** The outcome of evaluating an expression or of awaiting a promise. *)
Inductive Completion (A : Type) : Type :=
| Normal (a : A)
| Abrupt (t : Thrown).
Arguments Normal {A} a.
Arguments Abrupt {A} t.

Definition bindC {A B : Type} (c : Completion A) (k : A -> Completion B) : Completion B :=
  match c with
  | Normal a => k a
  | Abrupt t => Abrupt t
  end.

Notation "'doC' x <- c ;; k" := (bindC c (fun x => k))
  (at level 10, x name, c at level 99, k at level 200).

Fixpoint mapC {A B : Type} (f : A -> Completion B) (l : list A) : Completion (list B) :=
  match l with
  | [] => Normal []
  | x :: r => doC y <- f x ;; doC ys <- mapC f r ;; Normal (y :: ys)
  end.

(** [error instanceof Error ? error.message : String(error)] *)
Definition error_text (t : Thrown) : string :=
  match t with
  | ThrowError m => m
  | ThrowValue v => JS_String v
  end.

(** ** The response envelope *)

Record ContentItem : Type := { type : string; text : string }.

(** [isError] is either absent ([None]) or present. *)
Record Envelope : Type := { content : list ContentItem; isError : option bool }.

Definition success_envelope (txt : string) : Envelope :=
  {| content := [ {| type := "text"; text := txt |} ]; isError := None |}.

Definition error_envelope (msg : string) : Envelope :=
  {| content := [ {| type := "text"; text := msg |} ]; isError := Some true |}.

(** ** Collaborators *)

(** A result of the unsplash-js client: [errors] is defined exactly on the
    results of type [error], [response] on those of type [success]. *)
Inductive ApiResponse : Type :=
| ApiSuccess (response : jsval)
| ApiError (errors : list string).

(** A node-fetch response; [buffer] is the outcome of [response.buffer()]. *)
Record FetchResponse : Type := {
  ok : bool;
  status : Z;
  statusText : string;
  buffer : Completion (list byte)
}.

(** A write that fails either touched nothing (the file could not be
    opened) or failed after the file was opened for writing, which creates or
    truncates it: the file is then left holding [remains]. *)
Inductive WriteFailure : Type :=
| OpenFailed (t : Thrown)
| WriteFailed (t : Thrown) (remains : list byte).

Record Env : Type := {
  (** the engine: StringToNumber, ToNumber on an object, an array or a
      function (ToPrimitive calls its [valueOf] and [toString] and throws a
      TypeError when neither gives a primitive, as for an own [toString]
      that is not callable), and the texts of its TypeErrors *)
  StringToNumber : string -> number;
  ObjectToNumber : jsval -> Completion number;
  msg_destructure : jsval -> string;
  msg_read : jsval -> string -> string;
  msg_not_function : string -> string;
  (** [path] *)
  path_dirname : string -> string;
  msg_path_type : jsval -> string;
  (** the provider client *)
  search_getPhotos : jsval -> jsval -> number -> jsval -> Completion ApiResponse;
  photos_getRandom : jsval -> jsval -> number -> Completion ApiResponse;
  photos_get : jsval -> Completion ApiResponse;
  photos_trackDownload : jsval -> Completion ApiResponse;
  (** node-fetch *)
  fetch : jsval -> Completion FetchResponse;
  (** [fs]: the failure, if any, of creating a directory or writing a file *)
  mkdir_error : string -> option Thrown;
  writeFile_error : string -> option WriteFailure
}.

(** ** The world: file system and call log *)

Inductive Event : Type :=
| EvSearchGetPhotos (query page : jsval) (perPage : number) (orientation : jsval)
| EvPhotosGetRandom (query orientation : jsval) (count : number)
| EvPhotosGet (photoId : jsval)
| EvTrackDownload (downloadLocation : jsval)
| EvFetch (url : jsval)
| EvBuffer
| EvExistsSync (p : string)
| EvMkdirSync (p : string)
| EvWriteFile (p : string) (data : list byte)
| EvConsoleError (label : string) (err : Thrown).

Record World : Type := {
  dirs : gset string;
  files : gmap string (list byte);
  log : list Event
}.

Definition add_event (e : Event) (w : World) : World :=
  {| dirs := dirs w; files := files w; log := log w ++ [e] |}.

(** Calls to the provider client. *)
Definition is_provider_call (e : Event) : bool :=
  match e with
  | EvSearchGetPhotos _ _ _ _ | EvPhotosGetRandom _ _ _ | EvPhotosGet _ | EvTrackDownload _ => true
  | _ => false
  end.

Definition is_fetch (e : Event) : bool :=
  match e with
  | EvFetch _ => true
  | _ => false
  end.

Definition is_fs_call (e : Event) : bool :=
  match e with
  | EvExistsSync _ | EvMkdirSync _ | EvWriteFile _ _ => true
  | _ => false
  end.

(** ** Effectful computations *)

Definition M (A : Type) : Type := World -> Completion A * World.

Definition ret {A : Type} (a : A) : M A := fun w => (Normal a, w).

Definition bind {A B : Type} (m : M A) (k : A -> M B) : M B :=
  fun w =>
    match m w with
    | (Normal a, w') => k a w'
    | (Abrupt t, w') => (Abrupt t, w')
    end.

Notation "'doM' x <- m ;; k" := (bind m (fun x => k))
  (at level 10, x name, m at level 99, k at level 200).

(** A pure evaluation inside an effectful computation. *)
Definition lift {A : Type} (c : Completion A) : M A := fun w => (c, w).

(** A call to a collaborator whose outcome is [c], recorded as [e]. *)
Definition await {A : Type} (e : Event) (c : Completion A) : M A :=
  fun w => (c, add_event e w).

(** [try { body } catch (error) { console.error(label, error); return
    error envelope }]: the shape every handler has. *)
Definition try_catch (label prefix : string) (body : M Envelope) (w : World) : Envelope * World :=
  match body w with
  | (Normal e, w') => (e, w')
  | (Abrupt t, w') =>
      (error_envelope (prefix ++ error_text t), add_event (EvConsoleError label t) w')
  end.

(** ** The protocol fault of the dispatcher *)

Inductive ErrorCode : Type :=
| ConnectionClosed | RequestTimeout | ParseError | InvalidRequest
| MethodNotFound | InvalidParams | InternalError.

Record McpError : Type := { code : ErrorCode; message : string }.

Section UnsplashServer.

Context (env : Env).

(** *** Engine operations *)

Definition ToNumber (v : jsval) : Completion number :=
  match v with
  | JUndefined => Normal NaN
  | JNull => Normal (Int 0)
  | JBool true => Normal (Int 1)
  | JBool false => Normal (Int 0)
  | JNum n => Normal n
  | JStr s => Normal (StringToNumber env s)
  | JArr _ | JObj _ | JFun _ => ObjectToNumber env v
  end.

(** [Math.min(v, k)] for a literal [k]: it throws what the conversion of
    [v] throws. *)
Definition Math_min (v : jsval) (k : Z) : Completion number :=
  doC n <- ToNumber v ;;
  Normal (match n with
          | Int z => Int (Z.min z k)
          | NaN => NaN
          end).

(** [const { ... } = args] throws on [null] and [undefined]. *)
Definition destructure (args : jsval) : Completion unit :=
  if nullish args then Abrupt (ThrowError (msg_destructure env args)) else Normal tt.

(** [v.k] *)
Definition read (v : jsval) (k : string) : Completion jsval :=
  if nullish v then Abrupt (ThrowError (msg_read env v k)) else Normal (prop v k).

(** [recv.map(f)] *)
Definition method_map (recv : jsval) (f : jsval -> Completion jsval) : Completion (list jsval) :=
  match recv with
  | JArr l => mapC f l
  | JUndefined | JNull => Abrupt (ThrowError (msg_read env recv "map"))
  | _ => Abrupt (ThrowError (msg_not_function env "map"))
  end.

(** [path.dirname(p)] validates that [p] is a string. *)
Definition dirname (p : jsval) : Completion string :=
  match p with
  | JStr s => Normal (path_dirname env s)
  | _ => Abrupt (ThrowError (msg_path_type env p))
  end.

(** *** The provider client, node-fetch and fs *)

Definition unsplash_search_getPhotos (query page : jsval) (perPage : number) (orientation : jsval)
  : M ApiResponse :=
  await (EvSearchGetPhotos query page perPage orientation)
        (search_getPhotos env query page perPage orientation).

Definition unsplash_photos_getRandom (query orientation : jsval) (count : number) : M ApiResponse :=
  await (EvPhotosGetRandom query orientation count) (photos_getRandom env query orientation count).

Definition unsplash_photos_get (photoId : jsval) : M ApiResponse :=
  await (EvPhotosGet photoId) (photos_get env photoId).

Definition unsplash_photos_trackDownload (downloadLocation : jsval) : M ApiResponse :=
  await (EvTrackDownload downloadLocation) (photos_trackDownload env downloadLocation).

Definition node_fetch (url : jsval) : M FetchResponse :=
  await (EvFetch url) (fetch env url).

Definition response_buffer (r : FetchResponse) : M (list byte) :=
  await EvBuffer (buffer r).

Definition exists_in (p : string) (w : World) : bool :=
  bool_decide (p ∈ dirs w) || bool_decide (is_Some (files w !! p)).

Definition fs_existsSync (p : string) : M bool :=
  fun w => (Normal (exists_in p w), add_event (EvExistsSync p) w).

(** The proper ancestors of [p], nearest first. *)
Fixpoint ancestors (fuel : nat) (p : string) : list string :=
  match fuel with
  | O => []
  | S n =>
      let d := path_dirname env p in
      if String.eqb d p then [] else d :: ancestors n d
  end.

(** [fs.mkdirSync(p, { recursive: true })] *)
Definition fs_mkdirSync_recursive (p : string) : M unit :=
  fun w =>
    match mkdir_error env p with
    | Some t => (Abrupt t, add_event (EvMkdirSync p) w)
    | None =>
        (Normal tt,
         add_event (EvMkdirSync p)
           {| dirs := {[ p ]} ∪ list_to_set (ancestors (String.length p) p) ∪ dirs w;
              files := files w;
              log := log w |})
    end.

(** [promisify(fs.writeFile)(p, data)] *)
Definition fs_writeFile (p : string) (data : list byte) : M unit :=
  fun w =>
    match writeFile_error env p with
    | Some (OpenFailed t) => (Abrupt t, add_event (EvWriteFile p data) w)
    | Some (WriteFailed t remains) =>
        (Abrupt t,
         add_event (EvWriteFile p data)
           {| dirs := dirs w; files := <[ p := remains ]> (files w); log := log w |})
    | None =>
        (Normal tt,
         add_event (EvWriteFile p data)
           {| dirs := dirs w; files := <[ p := data ]> (files w); log := log w |})
    end.

(** *** Projection of a provider photo *)

(** [a || b || 'No description'] *)
Definition description_of (photo : jsval) : Completion jsval :=
  doC d <- read photo "description" ;;
  if truthy d then Normal d
  else
    doC a <- read photo "alt_description" ;;
    if truthy a then Normal a else Normal (JStr "No description").

Definition formatPhoto (photo : jsval) : Completion jsval :=
  doC id <- read photo "id" ;;
  doC description <- description_of photo ;;
  doC width <- read photo "width" ;;
  doC height <- read photo "height" ;;
  doC urls <- read photo "urls" ;;
  doC user1 <- read photo "user" ;;
  doC name <- read user1 "name" ;;
  doC user2 <- read photo "user" ;;
  doC username <- read user2 "username" ;;
  doC user3 <- read photo "user" ;;
  doC user_links <- read user3 "links" ;;
  doC link <- read user_links "html" ;;
  doC links <- read photo "links" ;;
  Normal (JObj [("id", id);
                ("description", description);
                ("width", width);
                ("height", height);
                ("urls", urls);
                ("user", JObj [("name", name); ("username", username); ("link", link)]);
                ("links", links)]).

(** *** handleSearchImages *)

Definition searchImages_body (args : jsval) : M Envelope :=
  doM _ <- lift (destructure args) ;;
  let query := prop args "query" in
  let page := with_default (prop args "page") (JNum (Int 1)) in
  let perPage := with_default (prop args "perPage") (JNum (Int 10)) in
  let orientation := prop args "orientation" in
  if negb (truthy query) || negb (is_string query) then
    ret (error_envelope "Invalid query. Please provide a search term.")
  else
    doM effective <- lift (Math_min perPage 30) ;;
    doM result <- unsplash_search_getPhotos query page effective orientation ;;
    match result with
    | ApiError errors =>
        ret (error_envelope ("Unsplash API error: " ++ join ", " errors))
    | ApiSuccess response =>
        (* the arrow function given to [map] is [formatPhoto], written inline *)
        doM results <- lift (read response "results") ;;
        doM images <- lift (method_map results formatPhoto) ;;
        doM total <- lift (read response "total") ;;
        doM total_pages <- lift (read response "total_pages") ;;
        ret (success_envelope
               (JSON_stringify [("total", total);
                                ("total_pages", total_pages);
                                ("images", JArr images)]))
    end.

Definition handleSearchImages (args : jsval) : World -> Envelope * World :=
  try_catch "Error in search_images:" "Error searching images: " (searchImages_body args).

(** *** handleGetRandomImage *)

Definition getRandomImage_body (args : jsval) : M Envelope :=
  doM _ <- lift (destructure args) ;;
  let query := prop args "query" in
  let orientation := prop args "orientation" in
  let count := with_default (prop args "count") (JNum (Int 1)) in
  doM effective <- lift (Math_min count 30) ;;
  doM result <- unsplash_photos_getRandom query orientation effective ;;
  match result with
  | ApiError errors =>
      ret (error_envelope ("Unsplash API error: " ++ join ", " errors))
  | ApiSuccess response =>
      doM images <-
        lift (if Array_isArray response
              then method_map response formatPhoto
              else doC image <- formatPhoto response ;; Normal [image]) ;;
      ret (success_envelope (JSON_stringify [("images", JArr images)]))
  end.

Definition handleGetRandomImage (args : jsval) : World -> Envelope * World :=
  try_catch "Error in get_random_image:" "Error getting random image: " (getRandomImage_body args).

(** *** handleGetImageById *)

Definition getImageById_body (args : jsval) : M Envelope :=
  doM _ <- lift (destructure args) ;;
  let id := prop args "id" in
  if negb (truthy id) || negb (is_string id) then
    ret (error_envelope "Invalid ID. Please provide a valid Unsplash image ID.")
  else
    doM result <- unsplash_photos_get id ;;
    match result with
    | ApiError errors =>
        ret (error_envelope ("Unsplash API error: " ++ join ", " errors))
    | ApiSuccess photo =>
        (* the object literal is [formatPhoto], written inline *)
        doM image <- lift (formatPhoto photo) ;;
        ret (success_envelope (JSON_stringify [("image", image)]))
    end.

Definition handleGetImageById (args : jsval) : World -> Envelope * World :=
  try_catch "Error in get_image_by_id:" "Error getting image by ID: " (getImageById_body args).

(** *** handleDownloadImage *)

(** The [switch (quality)] over the photo's [urls]. *)
Definition select_url (quality urls : jsval) : Completion jsval :=
  if strict_eq_str quality "raw" then read urls "raw"
  else if strict_eq_str quality "full" then read urls "full"
  else if strict_eq_str quality "small" then read urls "small"
  else if strict_eq_str quality "thumb" then read urls "thumb"
  else read urls "regular".

(** [promisify(fs.writeFile)(destinationPath, buffer)] on the handler's
    [destinationPath], a string once [path.dirname] has accepted it. *)
Definition writeFile (destinationPath : jsval) (data : list byte) : M unit :=
  match destinationPath with
  | JStr p => fs_writeFile p data
  | _ => lift (Abrupt (ThrowError (msg_path_type env destinationPath)))
  end.

(** From [fetch(imageUrl)] to the success envelope. *)
Definition fetch_and_save (imageUrl destinationPath : jsval) : M Envelope :=
  doM response <- node_fetch imageUrl ;;
  if negb (ok response) then
    ret (error_envelope
           ("Failed to download image: " ++ Z_to_string (status response)
              ++ " " ++ statusText response))
  else
    doM buffer <- response_buffer response ;;
    doM _ <- writeFile destinationPath buffer ;;
    ret (success_envelope
           (JSON_stringify
              [("success", JBool true);
               ("message", JStr ("Image successfully downloaded to " ++ JS_String destinationPath));
               ("filePath", destinationPath);
               ("fileSize", JNum (Int (Z.of_nat (length buffer))))])).

Definition invalid_sourceType_message : string :=
  "Invalid sourceType. Please provide either " ++ dquote ++ "url" ++ dquote
    ++ " or " ++ dquote ++ "id" ++ dquote ++ ".".

(** [if (!fs.existsSync(dir)) fs.mkdirSync(dir, { recursive: true })] *)
Definition ensure_directory (dir : string) : M unit :=
  doM present <- fs_existsSync dir ;;
  if negb present then fs_mkdirSync_recursive dir else ret tt.

Definition downloadImage_body (args : jsval) : M Envelope :=
  doM _ <- lift (destructure args) ;;
  let imageSource := prop args "imageSource" in
  let sourceType := prop args "sourceType" in
  let destinationPath := prop args "destinationPath" in
  let quality := with_default (prop args "quality") (JStr "regular") in
  if negb (truthy imageSource) || negb (truthy sourceType) || negb (truthy destinationPath) then
    ret (error_envelope
           "Missing required parameters. Please provide imageSource, sourceType, and destinationPath.")
  else if negb (strict_eq_str sourceType "url") && negb (strict_eq_str sourceType "id") then
    ret (error_envelope invalid_sourceType_message)
  else
    doM dir <- lift (dirname destinationPath) ;;
    doM _ <- ensure_directory dir ;;
    if strict_eq_str sourceType "id" then
      doM result <- unsplash_photos_get imageSource ;;
      match result with
      | ApiError errors =>
          ret (error_envelope ("Unsplash API error: " ++ join ", " errors))
      | ApiSuccess response =>
          doM urls <- lift (read response "urls") ;;
          doM imageUrl <- lift (select_url quality urls) ;;
          doM links <- lift (read response "links") ;;
          doM download_location <- lift (read links "download_location") ;;
          doM _ <- unsplash_photos_trackDownload download_location ;;
          fetch_and_save imageUrl destinationPath
      end
    else
      fetch_and_save imageSource destinationPath.

Definition handleDownloadImage (args : jsval) : World -> Envelope * World :=
  try_catch "Error in download_image:" "Error downloading image: " (downloadImage_body args).

(** *** The dispatcher: the CallTool request handler *)

Definition CallTool (name : string) (arguments : jsval) (w : World)
  : (McpError + Envelope) * World :=
  if String.eqb name "search_images" then
    let (e, w') := handleSearchImages arguments w in (inr e, w')
  else if String.eqb name "get_random_image" then
    let (e, w') := handleGetRandomImage arguments w in (inr e, w')
  else if String.eqb name "get_image_by_id" then
    let (e, w') := handleGetImageById arguments w in (inr e, w')
  else if String.eqb name "download_image" then
    let (e, w') := handleDownloadImage arguments w in (inr e, w')
  else
    (inl {| code := MethodNotFound; message := "Unknown tool: " ++ name |}, w).

End UnsplashServer.

(** ** A sample environment *)

Module Sample.

(** The text before the last slash; [.] when there is none, [/] for a path
    directly under the root. *)
Fixpoint before_last_slash (s : string) : option string :=
  match s with
  | EmptyString => None
  | String c r =>
      match before_last_slash r with
      | Some d => Some (String c d)
      | None => if Ascii.eqb c "/"%char then Some EmptyString else None
      end
  end.

Definition posix_dirname (s : string) : string :=
  match before_last_slash s with
  | None => "."
  | Some EmptyString => "/"
  | Some d => d
  end.

Definition photo : jsval :=
  JObj [("id", JStr "abc");
        ("description", JNull);
        ("alt_description", JStr "a cat");
        ("width", JNum (Int 800));
        ("height", JNum (Int 600));
        ("urls", JObj [("raw", JStr "https://img/raw");
                       ("full", JStr "https://img/full");
                       ("regular", JStr "https://img/regular");
                       ("small", JStr "https://img/small");
                       ("thumb", JStr "https://img/thumb")]);
        ("user", JObj [("name", JStr "Ann"); ("username", JStr "ann");
                       ("links", JObj [("html", JStr "https://u/ann")])]);
        ("links", JObj [("html", JStr "https://p/abc");
                        ("download_location", JStr "https://api/abc/download")])].

Definition payload : list byte := [x01; x02; x03].

(** An engine that reads no string as a number and converts a plain object
    (an own [toString] that is not callable makes the conversion throw), an
    empty array and an array of one number.
    A provider that knows one photo, reports errors for the id [missing] and
    for the query [boom], and refuses to count the download of any photo; a
    host on which every fetch but that of [https://gone] succeeds; a file
    system on which nothing can be created under [/sealed]. *)
Definition env : Env :=
  {| StringToNumber := fun _ => NaN;
     ObjectToNumber := fun v =>
       match v with
       | JObj ps =>
           match lookup_prop "toString" ps with
           | JUndefined | JFun _ => Normal NaN
           | _ => Abrupt (ThrowError "Cannot convert object to primitive value")
           end
       | JArr [] => Normal (Int 0)
       | JArr [JNum n] => Normal n
       | _ => Normal NaN
       end;
     msg_destructure := fun _ => "Cannot destructure property of undefined";
     msg_read := fun _ k => "Cannot read properties of undefined (reading '" ++ k ++ "')";
     msg_not_function := fun k => k ++ " is not a function";
     path_dirname := posix_dirname;
     msg_path_type := fun _ => "The path argument must be of type string";
     search_getPhotos := fun q _ _ _ =>
       if strict_eq_str q "boom" then Normal (ApiError ["Rate Limit Exceeded"; "try later"])
       else Normal (ApiSuccess (JObj [("total", JNum (Int 1)); ("total_pages", JNum (Int 1));
                                      ("results", JArr [photo])]));
     photos_getRandom := fun q _ n =>
       if strict_eq_str q "boom" then Normal (ApiError ["Rate Limit Exceeded"; "try later"])
       else if strict_eq_str q "one" then Normal (ApiSuccess photo)
       else Normal (ApiSuccess (JArr [photo; photo]));
     photos_get := fun i =>
       if strict_eq_str i "missing" then Normal (ApiError ["Couldn't find Photo"; "try later"])
       else Normal (ApiSuccess photo);
     photos_trackDownload := fun _ => Normal (ApiError ["OAuth error"]);
     fetch := fun u =>
       if strict_eq_str u "https://gone"
       then Normal {| ok := false; status := 404; statusText := "Not Found"; buffer := Normal [] |}
       else Normal {| ok := true; status := 200; statusText := "OK"; buffer := Normal payload |};
     mkdir_error := fun p =>
       if String.prefix "/sealed" p then Some (ThrowError "EACCES: permission denied, mkdir") else None;
     writeFile_error := fun _ => None |}.

Definition empty_world : World := {| dirs := ∅; files := ∅; log := [] |}.

Definition download_args (source sourceType dest : string) (quality : jsval) : jsval :=
  JObj [("imageSource", JStr source); ("sourceType", JStr sourceType);
        ("destinationPath", JStr dest); ("quality", quality)].

End Sample.

(** ** Vocabulary of the properties *)

(** The four registered tool names. *)
Definition tool_names : list string :=
  ["search_images"; "get_random_image"; "get_image_by_id"; "download_image"].

Ltac unfold_handlers :=
  unfold handleSearchImages, handleGetRandomImage, handleGetImageById, handleDownloadImage,
    searchImages_body, getRandomImage_body, getImageById_body, downloadImage_body,
    fetch_and_save, ensure_directory, writeFile,
    unsplash_search_getPhotos, unsplash_photos_getRandom, unsplash_photos_get,
    unsplash_photos_trackDownload, node_fetch, response_buffer,
    fs_existsSync, fs_mkdirSync_recursive, fs_writeFile,
    try_catch, bind, lift, ret, await, destructure in *.

(** The calls a run added to the log are those after the log it started
    from. *)
Definition added (w w' : World) (evs : list Event) : Prop :=
  log w' = (log w ++ evs)%list.

(** The texts a failure is reported with: four fixed sentences and six
    openings followed by the detail of the failure. *)
Definition error_message_openings : list string :=
  ["Invalid query. Please provide a search term.";
   "Invalid ID. Please provide a valid Unsplash image ID.";
   "Missing required parameters. Please provide imageSource, sourceType, and destinationPath.";
   invalid_sourceType_message;
   "Unsplash API error: ";
   "Failed to download image: ";
   "Error searching images: ";
   "Error getting random image: ";
   "Error getting image by ID: ";
   "Error downloading image: "].

Definition is_error_message (t : string) : bool :=
  existsb (fun opening => String.prefix opening t) error_message_openings.

(** The envelope invariant: one element, of type text; [isError] is [true]
    exactly on an error message, and is absent on a serialized payload. *)
Definition envelope_invariant (e : Envelope) : Prop :=
  ∃ t : string,
    content e = [ {| type := "text"; text := t |} ]
    ∧ (isError e = Some true ↔ is_error_message t = true)
    ∧ (isError e ≠ Some true →
       isError e = None ∧ ∃ payload, t = JSON_stringify payload).

(** The two shapes a handler builds. *)
Inductive built_envelope : Envelope → Prop :=
| built_error (t : string) :
    is_error_message t = true → built_envelope (error_envelope t)
| built_success (payload : list (string * jsval)) :
    built_envelope (success_envelope (JSON_stringify payload)).

(** [s] occurs in [t]. *)
Definition occurs_in (s t : string) : Prop :=
  ∃ before after : string, t = before ++ s ++ after.

(** The envelope that reports a provider's error list: it is an error
    envelope, its text is the list joined with a comma and a space after the
    fixed opening, and so every error string occurs in it. *)
Definition reports_errors (e : Envelope) (errors : list string) : Prop :=
  isError e = Some true
  ∧ content e = [ {| type := "text"; text := "Unsplash API error: " ++ join ", " errors |} ]
  ∧ ∀ x : string, x ∈ errors → occurs_in x ("Unsplash API error: " ++ join ", " errors).

Ltac solve_added :=
  unfold added, add_event; cbn [log dirs files];
  rewrite <- ?app_assoc; cbn [app];
  first [ reflexivity | symmetry; apply app_nil_r ].

(** The five qualities, and the field of a photo's [urls] that a requested
    quality names: the quality itself when it is one of the five, [regular]
    when it is anything else or is not given. *)
Definition qualities : list string := ["raw"; "full"; "regular"; "small"; "thumb"].

Definition url_field (quality : jsval) : string :=
  match quality with
  | JStr q => if bool_decide (q ∈ qualities) then q else "regular"
  | _ => "regular"
  end.

Ltac invert_reads :=
  repeat match goal with
         | H : read _ ?v _ = Normal _ |- _ =>
             unfold read in H; destruct (nullish v) eqn:?; simplify_eq
         | H : read _ ?v _ = Abrupt _ |- _ =>
             unfold read in H; destruct (nullish v) eqn:?; simplify_eq
         end.


Ltac solve_elem_of :=
  repeat (apply elem_of_cons; first [left; reflexivity | right]).

Ltac invert_elem_of :=
  repeat match goal with
         | H : _ ∈ [] |- _ => inversion H
         | H : _ ∈ _ :: _ |- _ => apply elem_of_cons in H as [H | H]; simplify_eq
         end.

(** Two recorded outcomes of one call are the same outcome. *)
Ltac same_answer :=
  repeat match goal with
         | H : ?c = _, H' : ?c = _ |- _ => rewrite H in H'; simplify_eq
         end.

(** A [download_image] request that passes both validation steps. *)
Definition passes_validation (args : jsval) : Prop :=
  truthy (prop args "imageSource") = true
  ∧ truthy (prop args "sourceType") = true
  ∧ truthy (prop args "destinationPath") = true
  ∧ (prop args "sourceType" = JStr "url" ∨ prop args "sourceType" = JStr "id").

(** ** The tool catalog: the ListTools request handler *)

Module Property.
Record t : Type := { type : string; enum : option (list string); description : string }.
End Property.

Module InputSchema.
(** [required] is absent from the schema of [get_random_image]. *)
Record t : Type := {
  type : string;
  properties : list (string * Property.t);
  required : option (list string)
}.
End InputSchema.

Module Tool.
Record t : Type := { name : string; description : string; inputSchema : InputSchema.t }.
End Tool.

Definition ListTools : list Tool.t :=
  [ {| Tool.name := "search_images";
       Tool.description := "Search for images on Unsplash by keywords";
       Tool.inputSchema :=
         {| InputSchema.type := "object";
            InputSchema.properties :=
              [("query",
                {| Property.type := "string"; Property.enum := None;
                   Property.description := "Search query (keywords for image search)" |});
               ("page",
                {| Property.type := "number"; Property.enum := None;
                   Property.description := "Page number for pagination (default: 1)" |});
               ("perPage",
                {| Property.type := "number"; Property.enum := None;
                   Property.description := "Number of images per page (default: 10, max: 30)" |});
               ("orientation",
                {| Property.type := "string";
                   Property.enum := Some ["landscape"; "portrait"; "squarish"];
                   Property.description := "Filter by image orientation" |})];
            InputSchema.required := Some ["query"] |} |};
    {| Tool.name := "download_image";
       Tool.description :=
         "Download an image from Unsplash by URL or ID and save it to the local filesystem";
       Tool.inputSchema :=
         {| InputSchema.type := "object";
            InputSchema.properties :=
              [("imageSource",
                {| Property.type := "string"; Property.enum := None;
                   Property.description := "Either a direct image URL or an Unsplash image ID" |});
               ("sourceType",
                {| Property.type := "string"; Property.enum := Some ["url"; "id"];
                   Property.description := "Type of source provided (url or id)" |});
               ("destinationPath",
                {| Property.type := "string"; Property.enum := None;
                   Property.description :=
                     "Path where the image should be saved (including filename)" |});
               ("quality",
                {| Property.type := "string";
                   Property.enum := Some ["raw"; "full"; "regular"; "small"; "thumb"];
                   Property.description := "Image quality to download (defaults to regular)" |})];
            InputSchema.required := Some ["imageSource"; "sourceType"; "destinationPath"] |} |};
    {| Tool.name := "get_random_image";
       Tool.description := "Get a random image from Unsplash, optionally filtered by criteria";
       Tool.inputSchema :=
         {| InputSchema.type := "object";
            InputSchema.properties :=
              [("query",
                {| Property.type := "string"; Property.enum := None;
                   Property.description := "Optional topic or search term" |});
               ("orientation",
                {| Property.type := "string";
                   Property.enum := Some ["landscape"; "portrait"; "squarish"];
                   Property.description := "Filter by image orientation" |});
               ("count",
                {| Property.type := "number"; Property.enum := None;
                   Property.description := "Number of images to return (default: 1, max: 30)" |})];
            InputSchema.required := None |} |};
    {| Tool.name := "get_image_by_id";
       Tool.description := "Get a specific image from Unsplash by its ID";
       Tool.inputSchema :=
         {| InputSchema.type := "object";
            InputSchema.properties :=
              [("id",
                {| Property.type := "string"; Property.enum := None;
                   Property.description := "Unsplash image ID" |})];
            InputSchema.required := Some ["id"] |} |} ].

(** The catalog entry of a name, and the values its schema lists for a
    property with an [enum]. *)
Definition find_tool (name : string) : option Tool.t :=
  List.find (fun t => String.eqb (Tool.name t) name) ListTools.

Fixpoint lookup_property (k : string) (ps : list (string * Property.t)) : option Property.t :=
  match ps with
  | [] => None
  | (k', p) :: r => if String.eqb k' k then Some p else lookup_property k r
  end.

Definition schema_enum (tool property : string) : list string :=
  match find_tool tool with
  | Some t =>
      match lookup_property property (InputSchema.properties (Tool.inputSchema t)) with
      | Some p => match Property.enum p with Some l => l | None => [] end
      | None => []
      end
  | None => []
  end.

Definition schema_required (tool : string) : list string :=
  match find_tool tool with
  | Some t => match InputSchema.required (Tool.inputSchema t) with Some l => l | None => [] end
  | None => []
  end.

(** Calls of one kind in a list of calls. *)
Definition is_mkdir (e : Event) : bool :=
  match e with EvMkdirSync _ => true | _ => false end.

Definition is_write (e : Event) : bool :=
  match e with EvWriteFile _ _ => true | _ => false end.

Definition is_buffer (e : Event) : bool :=
  match e with EvBuffer => true | _ => false end.

Definition is_tracking (e : Event) : bool :=
  match e with EvTrackDownload _ => true | _ => false end.

Definition is_console_error (e : Event) : bool :=
  match e with EvConsoleError _ _ => true | _ => false end.

(** A number the provider can be asked for as a page size: not above 30. *)
Definition at_most_30 (n : number) : Prop :=
  match n with
  | Int z => z ≤ 30
  | NaN => True
  end.

(** [typeof v === 'string'] and [v] is not the empty string. *)
Definition nonempty_string (v : jsval) : bool :=
  match v with
  | JStr s => negb (String.eqb s EmptyString)
  | _ => false
  end.

(** ** A failing environment *)

Module Faulty.

Definition bare_photo : jsval := JObj [("id", JStr "bare")].

(** A provider whose search rejects for the query [down] and otherwise
    answers with two results, the second without a [user]; whose random pick
    rejects with a value that is not an [Error]; whose tracking call rejects;
    and a disk that is full. *)
Definition env : Env :=
  {| StringToNumber := StringToNumber Sample.env;
     ObjectToNumber := ObjectToNumber Sample.env;
     msg_destructure := msg_destructure Sample.env;
     msg_read := msg_read Sample.env;
     msg_not_function := msg_not_function Sample.env;
     path_dirname := path_dirname Sample.env;
     msg_path_type := msg_path_type Sample.env;
     search_getPhotos := fun q _ _ _ =>
       if strict_eq_str q "down" then Abrupt (ThrowError "getaddrinfo ENOTFOUND api.unsplash.com")
       else Normal (ApiSuccess (JObj [("total", JNum (Int 2)); ("total_pages", JNum (Int 1));
                                      ("results", JArr [Sample.photo; bare_photo])]));
     photos_getRandom := fun _ _ _ => Abrupt (ThrowValue (JStr "timeout"));
     photos_get := fun _ => Normal (ApiSuccess Sample.photo);
     photos_trackDownload := fun _ => Abrupt (ThrowError "socket hang up");
     fetch := fetch Sample.env;
     mkdir_error := fun _ => None;
     writeFile_error := fun _ =>
       Some (WriteFailed (ThrowError "ENOSPC: no space left on device, write") []) |}.

End Faulty.

Ltac solve_last :=
  first [ exists []; reflexivity
        | eexists [_]; reflexivity
        | eexists [_; _]; reflexivity
        | eexists [_; _; _]; reflexivity
        | eexists [_; _; _; _]; reflexivity
        | eexists [_; _; _; _; _]; reflexivity
        | eexists [_; _; _; _; _; _]; reflexivity
        | eexists [_; _; _; _; _; _; _]; reflexivity ].

Ltac destruct_causes :=
  repeat match goal with
         | H : _ ∨ _ |- _ => destruct H as [H | H]
         | H : ∃ _, _ |- _ => destruct H as [? H]
         | H : _ ∧ _ |- _ => destruct H as [? H]
         end.

Ltac solve_counts :=
  unfold added, add_event; cbn [log dirs files fst snd];
  rewrite <- ?app_assoc; cbn [app];
  first [ reflexivity | symmetry; apply app_nil_r ].

Ltac count_calls :=
  repeat case_decide; try tauto; cbn [length]; lia.

Ltac normalize_exists :=
  repeat match goal with
         | H : negb (exists_in _ _) = true |- _ => apply negb_true_iff in H
         | H : negb (exists_in _ _) = false |- _ => apply negb_false_iff in H
         end.

(** What a failed write threw. *)
Definition failure_thrown (f : WriteFailure) : Thrown :=
  match f with
  | OpenFailed t => t
  | WriteFailed t _ => t
  end.

(** The files after a failed write of the file at [p]. *)
Definition files_after_failure (f : WriteFailure) (p : string) (fs : gmap string (list byte))
  : gmap string (list byte) :=
  match f with
  | OpenFailed _ => fs
  | WriteFailed _ remains => <[ p := remains ]> fs
  end.

(** * Properties *)

Example stringify_sample :
  JSON_stringify [("images", JArr [JObj [("id", JStr "a"); ("w", JNum (Int 3)); ("u", JUndefined)]; JNull]);
                  ("e", JArr [])]
  = "{" ++ newline ++ "  " ++ dquote ++ "images" ++ dquote ++ ": [" ++ newline
    ++ "    {" ++ newline ++ "      " ++ dquote ++ "id" ++ dquote ++ ": " ++ dquote ++ "a" ++ dquote ++ "," ++ newline
    ++ "      " ++ dquote ++ "w" ++ dquote ++ ": 3" ++ newline ++ "    }," ++ newline
    ++ "    null" ++ newline ++ "  ]," ++ newline
    ++ "  " ++ dquote ++ "e" ++ dquote ++ ": []" ++ newline ++ "}".
Proof. reflexivity. Qed.

(** ** Sample runs *)

Example sample_download_log :
  log (handleDownloadImage Sample.env
         (Sample.download_args "abc" "id" "/tmp/pics/a.jpg" (JStr "thumb"))
         Sample.empty_world).2
  = [EvExistsSync "/tmp/pics"; EvMkdirSync "/tmp/pics"; EvPhotosGet (JStr "abc");
     EvTrackDownload (JStr "https://api/abc/download");
     EvFetch (JStr "https://img/thumb"); EvBuffer;
     EvWriteFile "/tmp/pics/a.jpg" Sample.payload].
Proof. reflexivity. Qed.

Example sample_created_directories :
  elements (dirs (handleDownloadImage Sample.env
                    (Sample.download_args "abc" "id" "/tmp/pics/a.jpg" JUndefined)
                    Sample.empty_world).2)
  = ["/tmp/pics"; "/tmp"; "/"].
Proof. vm_compute. reflexivity. Qed.

Example sample_failed_fetch :
  (handleDownloadImage Sample.env
     (Sample.download_args "https://gone" "url" "out/a.jpg" JUndefined)
     Sample.empty_world).1
  = error_envelope "Failed to download image: 404 Not Found".
Proof. reflexivity. Qed.

Example sample_no_arguments :
  handleGetRandomImage Sample.env JUndefined Sample.empty_world
  = (error_envelope "Error getting random image: Cannot destructure property of undefined",
     {| dirs := ∅; files := ∅;
        log := [EvConsoleError "Error in get_random_image:"
                  (ThrowError "Cannot destructure property of undefined")] |}).
Proof. reflexivity. Qed.

Example sample_projection :
  formatPhoto Sample.env Sample.photo
  = Normal (JObj [("id", JStr "abc");
                  ("description", JStr "a cat");
                  ("width", JNum (Int 800));
                  ("height", JNum (Int 600));
                  ("urls", prop Sample.photo "urls");
                  ("user", JObj [("name", JStr "Ann"); ("username", JStr "ann");
                                 ("link", JStr "https://u/ann")]);
                  ("links", prop Sample.photo "links")]).
Proof. reflexivity. Qed.

Example sample_unreadable_photo :
  formatPhoto Sample.env (JObj [("id", JStr "abc")])
  = Abrupt (ThrowError "Cannot read properties of undefined (reading 'name')").
Proof. reflexivity. Qed.

#[local] Arguments JSON_stringify : simpl never.
#[local] Arguments JS_String : simpl never.
#[local] Arguments Z_to_string : simpl never.
#[local] Arguments join : simpl never.
#[local] Arguments String.append : simpl never.
#[local] Arguments Math_min : simpl never.
#[local] Arguments formatPhoto : simpl never.
#[local] Arguments method_map : simpl never.
#[local] Arguments select_url : simpl never.
#[local] Arguments exists_in : simpl never.
#[local] Arguments invalid_sourceType_message : simpl never.

(** ** Basic facts *)

Lemma eqb_neq_false (a b : string) : a ≠ b → String.eqb a b = false.
Proof. intros H. apply String.eqb_neq. exact H. Qed.

Lemma prop_defined (v : jsval) (k : string) : prop v k ≠ JUndefined → nullish v = false.
Proof. destruct v; cbn; congruence. Qed.

Lemma truthy_JStr (s : string) : s ≠ EmptyString → truthy (JStr s) = true.
Proof. intros H. cbn. now destruct s. Qed.

Lemma read_defined (env : Env) (v : jsval) (k : string) :
  nullish v = false → read env v k = Normal (prop v k).
Proof. unfold read. now intros ->. Qed.

Lemma append_nil_r (s : string) : s ++ EmptyString = s.
Proof.
  induction s as [| c s IH]; [reflexivity |].
  change (String c s ++ EmptyString) with (String c (s ++ EmptyString)).
  now rewrite IH.
Qed.

Lemma append_assoc (a b c : string) : (a ++ b) ++ c = a ++ (b ++ c).
Proof.
  induction a as [| x a IH]; [reflexivity |].
  change ((String x a ++ b) ++ c) with (String x ((a ++ b) ++ c)).
  now rewrite IH.
Qed.

(** What a run added is determined by its two logs. *)
Lemma added_inv (w w' : World) (evs evs' : list Event) :
  added w w' evs → log w' = (log w ++ evs')%list → evs = evs'.
Proof. unfold added. intros -> H. now apply app_inv_head in H. Qed.

Ltac invert_added :=
  match goal with
  | H : added _ _ _ |- _ =>
      eapply added_inv in H;
      [| unfold add_event; cbn [log dirs files]; rewrite <- ?app_assoc; cbn [app];
         first [ reflexivity | symmetry; apply app_nil_r ] ];
      subst
  end.

(** ** The dispatcher *)

Section Dispatcher.

Context (env : Env).

(** C2. A name outside the four registered ones makes the dispatcher fail
    with a [MethodNotFound] fault whose message carries that name; no
    envelope is produced and no handler runs (the world is untouched).  Each
    registered name is answered by the envelope, and leaves the world, of
    exactly its own handler. *)
Theorem CallTool_routes (name : string) (arguments : jsval) (w : World) :
  (name ∉ tool_names →
     CallTool env name arguments w
     = (inl {| code := MethodNotFound; message := "Unknown tool: " ++ name |}, w))
  ∧ (name = "search_images" →
     CallTool env name arguments w
     = (inr (handleSearchImages env arguments w).1, (handleSearchImages env arguments w).2))
  ∧ (name = "get_random_image" →
     CallTool env name arguments w
     = (inr (handleGetRandomImage env arguments w).1, (handleGetRandomImage env arguments w).2))
  ∧ (name = "get_image_by_id" →
     CallTool env name arguments w
     = (inr (handleGetImageById env arguments w).1, (handleGetImageById env arguments w).2))
  ∧ (name = "download_image" →
     CallTool env name arguments w
     = (inr (handleDownloadImage env arguments w).1, (handleDownloadImage env arguments w).2)).
Proof.
  unfold CallTool, tool_names. repeat split.
  - intros Hout.
    rewrite !eqb_neq_false; [reflexivity | | | |];
      intros ->; apply Hout; repeat constructor.
  - intros ->. cbn [String.eqb]. rewrite ?Ascii.eqb_refl. cbn.
    now destruct (handleSearchImages env arguments w).
  - intros ->. cbn.
    now destruct (handleGetRandomImage env arguments w).
  - intros ->. cbn.
    now destruct (handleGetImageById env arguments w).
  - intros ->. cbn.
    now destruct (handleDownloadImage env arguments w).
Qed.

End Dispatcher.

(** An unregistered name is answered by the fault, not by an envelope. *)
Lemma CallTool_routes_witness :
  CallTool Sample.env "resize_image" JNull Sample.empty_world
  = (inl {| code := MethodNotFound; message := "Unknown tool: resize_image" |}, Sample.empty_world).
Proof.
  apply (proj1 (CallTool_routes Sample.env "resize_image" JNull Sample.empty_world)).
  unfold tool_names. intros H. repeat (apply elem_of_cons in H as [H | H]; [discriminate H |]).
  inversion H.
Defined.

(** ** Page sizes *)

Section Clamping.

Context (env : Env).

(** C9. When [search_images] reaches the provider, the [perPage] it passes
    is the minimum of 30 and the supplied number, or of 30 and 10 when none
    is supplied; likewise the [count] passed by [get_random_image], with
    default 1.  In both cases it is the handler's only provider call. *)
Theorem effective_page_size (args : jsval) (w : World) (n : Z) :
  (∀ q : string,
     prop args "query" = JStr q → q ≠ EmptyString →
     prop args "perPage" = JNum (Int n) ∨ (prop args "perPage" = JUndefined ∧ n = 10) →
     ∃ evs,
       added w (handleSearchImages env args w).2
         (EvSearchGetPhotos (JStr q) (with_default (prop args "page") (JNum (Int 1)))
            (Int (Z.min n 30)) (prop args "orientation") :: evs)
       ∧ filter is_provider_call evs = [])
  ∧ (nullish args = false →
     prop args "count" = JNum (Int n) ∨ (prop args "count" = JUndefined ∧ n = 1) →
     ∃ evs,
       added w (handleGetRandomImage env args w).2
         (EvPhotosGetRandom (prop args "query") (prop args "orientation") (Int (Z.min n 30)) :: evs)
       ∧ filter is_provider_call evs = []).
Proof.
  split.
  - intros q Hq Hne Hpp.
    assert (Hargs : nullish args = false) by (apply (prop_defined _ "query"); congruence).
    assert (Heff : Math_min env (with_default (prop args "perPage") (JNum (Int 10))) 30
                   = Normal (Int (Z.min n 30))).
    { destruct Hpp as [-> | [-> ->]]; reflexivity. }
    assert (Htruthy : truthy (JStr q) = true).
    { cbn. destruct q; [congruence | reflexivity]. }
    unfold_handlers. rewrite Hargs, Hq, Htruthy, Heff. cbn.
    unfold added.
    repeat case_match; simplify_eq; cbn;
      rewrite <- ?app_assoc; cbn; eexists; (split; [reflexivity | reflexivity]).
  - intros Hargs Hc.
    assert (Heff : Math_min env (with_default (prop args "count") (JNum (Int 1))) 30
                   = Normal (Int (Z.min n 30))).
    { destruct Hc as [-> | [-> ->]]; reflexivity. }
    unfold_handlers. rewrite Hargs, Heff. cbn.
    unfold added.
    repeat case_match; simplify_eq; cbn;
      rewrite <- ?app_assoc; cbn; eexists; (split; [reflexivity | reflexivity]).
Qed.

End Clamping.

(** A supplied [perPage] of 1000 reaches the provider as 30. *)
Lemma effective_page_size_witness :
  ∃ evs,
    added Sample.empty_world
      (handleSearchImages Sample.env
         (JObj [("query", JStr "cats"); ("perPage", JNum (Int 1000))]) Sample.empty_world).2
      (EvSearchGetPhotos (JStr "cats") (JNum (Int 1)) (Int 30) JUndefined :: evs)
    ∧ filter is_provider_call evs = [].
Proof.
  apply (proj1 (effective_page_size Sample.env
                  (JObj [("query", JStr "cats"); ("perPage", JNum (Int 1000))])
                  Sample.empty_world 1000) "cats");
    [reflexivity | discriminate | left; reflexivity].
Defined.

(** ** Envelopes *)

Lemma prefix_append (p x : string) : String.prefix p (p ++ x) = true.
Proof.
  induction p as [| c p IH].
  - now destruct x.
  - change (String c p ++ x) with (String c (p ++ x)). cbn [String.prefix].
    rewrite IH. now destruct (Ascii.ascii_dec c c).
Qed.

Lemma prefix_self (p : string) : String.prefix p p = true.
Proof.
  induction p as [| c p IH]; cbn; [reflexivity |].
  rewrite IH. now destruct (Ascii.ascii_dec c c).
Qed.

Lemma is_error_message_opening (p x : string) :
  In p error_message_openings → is_error_message (p ++ x) = true.
Proof.
  intros Hin. unfold is_error_message. apply existsb_exists.
  exists p. split; [exact Hin | apply prefix_append].
Qed.

Lemma is_error_message_sentence (p : string) :
  In p error_message_openings → is_error_message p = true.
Proof.
  intros Hin. unfold is_error_message. apply existsb_exists.
  exists p. split; [exact Hin | apply prefix_self].
Qed.

(** A serialized object starts with its opening brace. *)
Lemma JSON_stringify_brace (payload : list (string * jsval)) :
  ∃ rest, JSON_stringify payload = String "{"%char rest.
Proof.
  unfold JSON_stringify. cbn [SerializeJSONProperty].
  unfold wrap_members. case_match; cbn [String.append]; eexists; reflexivity.
Qed.

Lemma payload_not_error_message (payload : list (string * jsval)) :
  is_error_message (JSON_stringify payload) = false.
Proof.
  destruct (JSON_stringify_brace payload) as [rest ->]. reflexivity.
Qed.

Lemma built_envelope_invariant (e : Envelope) : built_envelope e → envelope_invariant e.
Proof.
  intros [t Ht | payload].
  - exists t. cbn [content isError error_envelope]. repeat split; try done.
  - exists (JSON_stringify payload). cbn [content isError success_envelope].
    rewrite payload_not_error_message.
    repeat split; try done. eauto.
Qed.

Ltac known_opening :=
  unfold error_message_openings; cbn [In]; auto 12.

Ltac solve_built :=
  first
    [ apply built_success
    | solve [apply built_error, is_error_message_sentence; known_opening]
    | solve [apply built_error, is_error_message_opening; known_opening] ].

Section Envelopes.

Context (env : Env).

Lemma handleSearchImages_built (args : jsval) (w : World) :
  built_envelope (handleSearchImages env args w).1.
Proof. unfold_handlers. repeat case_match; simplify_eq; cbn; solve_built. Qed.

Lemma handleGetRandomImage_built (args : jsval) (w : World) :
  built_envelope (handleGetRandomImage env args w).1.
Proof. unfold_handlers. repeat case_match; simplify_eq; cbn; solve_built. Qed.

Lemma handleGetImageById_built (args : jsval) (w : World) :
  built_envelope (handleGetImageById env args w).1.
Proof. unfold_handlers. repeat case_match; simplify_eq; cbn; solve_built. Qed.

Lemma handleDownloadImage_built (args : jsval) (w : World) :
  built_envelope (handleDownloadImage env args w).1.
Proof. unfold_handlers. repeat case_match; simplify_eq; cbn; solve_built. Qed.

(** C1. Whatever the arguments and the world, each of the four handlers
    returns an envelope whose content is exactly one element of type text,
    whose [isError] is [true] if and only if that text is an error message,
    and whose text is otherwise a serialized payload with [isError] absent. *)
Theorem handlers_envelope_invariant (args : jsval) (w : World) :
  envelope_invariant (handleSearchImages env args w).1
  ∧ envelope_invariant (handleGetRandomImage env args w).1
  ∧ envelope_invariant (handleGetImageById env args w).1
  ∧ envelope_invariant (handleDownloadImage env args w).1.
Proof.
  repeat split; apply built_envelope_invariant.
  - apply handleSearchImages_built.
  - apply handleGetRandomImage_built.
  - apply handleGetImageById_built.
  - apply handleDownloadImage_built.
Qed.

End Envelopes.

(** ** Validation *)

Section Validation.

Context (env : Env).

(** C4. An invocation of [search_images] without [query], of
    [get_image_by_id] without [id], or of [download_image] without one of
    [imageSource], [sourceType] and [destinationPath] is answered by an
    envelope with [isError] true, and the run makes no call to the provider
    (nor, for [download_image], to the network or the file system).
    [get_random_image] requires no field. *)
Theorem missing_required_argument (args : jsval) (w : World) :
  (prop args "query" = JUndefined →
     isError (handleSearchImages env args w).1 = Some true
     ∧ ∃ evs, added w (handleSearchImages env args w).2 evs
              ∧ filter is_provider_call evs = [])
  ∧ (prop args "id" = JUndefined →
     isError (handleGetImageById env args w).1 = Some true
     ∧ ∃ evs, added w (handleGetImageById env args w).2 evs
              ∧ filter is_provider_call evs = [])
  ∧ (prop args "imageSource" = JUndefined
     ∨ prop args "sourceType" = JUndefined
     ∨ prop args "destinationPath" = JUndefined →
     isError (handleDownloadImage env args w).1 = Some true
     ∧ ∃ evs, added w (handleDownloadImage env args w).2 evs
              ∧ filter is_provider_call evs = []
              ∧ filter is_fetch evs = []
              ∧ filter is_fs_call evs = []).
Proof.
  split; [| split].
  - intros Hq. unfold_handlers. rewrite Hq.
    destruct (nullish args); cbn; (split; [reflexivity |]);
      eexists; (split; [solve_added | reflexivity]).
  - intros Hid. unfold_handlers. rewrite Hid.
    destruct (nullish args); cbn; (split; [reflexivity |]);
      eexists; (split; [solve_added | reflexivity]).
  - intros Hmiss. unfold_handlers. destruct (nullish args).
    + cbn. split; [reflexivity |]. eexists. split; [solve_added | repeat split].
    + assert (Hv : negb (truthy (prop args "imageSource"))
                   || negb (truthy (prop args "sourceType"))
                   || negb (truthy (prop args "destinationPath")) = true).
      { destruct Hmiss as [-> | [-> | ->]]; cbn; rewrite ?orb_true_r; reflexivity. }
      rewrite Hv. cbn. split; [reflexivity |].
      eexists. split; [solve_added | repeat split].
Qed.

End Validation.

(** A download request without [destinationPath]. *)
Lemma missing_required_argument_witness :
  isError (handleDownloadImage Sample.env
             (JObj [("imageSource", JStr "abc"); ("sourceType", JStr "id")])
             Sample.empty_world).1 = Some true
  ∧ ∃ evs, added Sample.empty_world
             (handleDownloadImage Sample.env
                (JObj [("imageSource", JStr "abc"); ("sourceType", JStr "id")])
                Sample.empty_world).2 evs
           ∧ filter is_provider_call evs = []
           ∧ filter is_fetch evs = []
           ∧ filter is_fs_call evs = [].
Proof.
  apply (proj2 (proj2 (missing_required_argument Sample.env
                         (JObj [("imageSource", JStr "abc"); ("sourceType", JStr "id")])
                         Sample.empty_world))).
  right. right. reflexivity.
Defined.

(** ** Provider errors *)

Lemma occurs_in_join (sep x : string) (l : list string) :
  x ∈ l → occurs_in x (join sep l).
Proof.
  unfold join. induction l as [| y l IH]; intros Hin.
  - inversion Hin.
  - apply elem_of_cons in Hin as [-> | Hin].
    + destruct l as [| z l].
      * exists EmptyString, EmptyString. cbn [String.concat String.append].
        now rewrite append_nil_r.
      * exists EmptyString, (sep ++ String.concat sep (z :: l)). reflexivity.
    + destruct (IH Hin) as (before & after & Heq).
      destruct l as [| z l]; [inversion Hin |].
      exists (y ++ sep ++ before), after.
      change (String.concat sep (y :: z :: l)) with (y ++ sep ++ String.concat sep (z :: l)).
      rewrite Heq. now rewrite !append_assoc.
Qed.

Lemma occurs_in_after (opening x t : string) : occurs_in x t → occurs_in x (opening ++ t).
Proof.
  intros (before & after & ->). exists (opening ++ before), after.
  now rewrite append_assoc.
Qed.

Lemma error_envelope_reports (errors : list string) :
  reports_errors (error_envelope ("Unsplash API error: " ++ join ", " errors)) errors.
Proof.
  repeat split. intros x Hx. apply occurs_in_after, occurs_in_join, Hx.
Qed.

Section ProviderErrors.

Context (env : Env).

(** C3. Whenever a handler has called the provider for its photos (the
    search, the random pick, or the lookup by id of [get_image_by_id] and of
    [download_image]) and the provider's answer carries an error list, the
    handler returns (it does not throw) an envelope with [isError] true whose
    text is the error strings joined by a comma and a space after the opening
    [Unsplash API error: ], so that every error string occurs in it. *)
Theorem provider_errors_reported (args : jsval) (w : World) (errors : list string)
    (evs : list Event) :
  (added w (handleSearchImages env args w).2 evs →
   ∀ q p n o, EvSearchGetPhotos q p n o ∈ evs →
     search_getPhotos env q p n o = Normal (ApiError errors) →
     reports_errors (handleSearchImages env args w).1 errors)
  ∧ (added w (handleGetRandomImage env args w).2 evs →
     ∀ q o n, EvPhotosGetRandom q o n ∈ evs →
       photos_getRandom env q o n = Normal (ApiError errors) →
       reports_errors (handleGetRandomImage env args w).1 errors)
  ∧ (added w (handleGetImageById env args w).2 evs →
     ∀ id, EvPhotosGet id ∈ evs →
       photos_get env id = Normal (ApiError errors) →
       reports_errors (handleGetImageById env args w).1 errors)
  ∧ (added w (handleDownloadImage env args w).2 evs →
     ∀ id, EvPhotosGet id ∈ evs →
       photos_get env id = Normal (ApiError errors) →
       reports_errors (handleDownloadImage env args w).1 errors).
Proof.
  split; [| split; [| split]]; intros; unfold_handlers;
    repeat case_match; simplify_eq; cbn [fst snd] in *;
    invert_added; invert_elem_of; same_answer;
    apply error_envelope_reports.
Qed.

End ProviderErrors.

(** The lookup of an unknown id: both error strings are reported. *)
Lemma provider_errors_reported_witness :
  reports_errors
    (handleGetImageById Sample.env (JObj [("id", JStr "missing")]) Sample.empty_world).1
    ["Couldn't find Photo"; "try later"].
Proof.
  apply (proj1 (proj2 (proj2
           (provider_errors_reported Sample.env (JObj [("id", JStr "missing")])
              Sample.empty_world ["Couldn't find Photo"; "try later"]
              [EvPhotosGet (JStr "missing")]))))
    with (id := JStr "missing");
    [reflexivity | apply elem_of_cons; left; reflexivity | reflexivity].
Defined.

(** ** Random images *)

Lemma mapC_Forall2 {A B : Type} (f : A → Completion B) (l : list A) (r : list B) :
  mapC f l = Normal r → Forall2 (λ x y, f x = Normal y) l r.
Proof.
  revert r. induction l as [| x l IH]; intros r H; cbn in H.
  - simplify_eq. constructor.
  - destruct (f x) eqn:Hx; cbn in H; [| discriminate].
    destruct (mapC f l) eqn:Hl; cbn in H; [| discriminate].
    simplify_eq. constructor; [exact Hx | now apply IH].
Qed.

Section RandomImages.

Context (env : Env).

(** C8. A [get_random_image] invocation that succeeds has a payload of the
    single field [images].  When the provider answered with an array, the
    images are the projections of its elements, one for each and in order;
    when it answered with anything else, they are the one projection of that
    answer.  The arguments, [count] among them, are arbitrary: only the shape
    of the answer decides. *)
Theorem random_images_shape (args : jsval) (w : World) :
  isError (handleGetRandomImage env args w).1 ≠ Some true →
  ∃ (response : jsval) (images : list jsval) (count : number),
    Math_min env (with_default (prop args "count") (JNum (Int 1))) 30 = Normal count
    ∧ photos_getRandom env (prop args "query") (prop args "orientation") count
      = Normal (ApiSuccess response)
    ∧ content (handleGetRandomImage env args w).1
      = [ {| type := "text"; text := JSON_stringify [("images", JArr images)] |} ]
    ∧ (∀ elems, response = JArr elems →
         Forall2 (λ photo image, formatPhoto env photo = Normal image) elems images)
    ∧ (Array_isArray response = false →
         ∃ image, formatPhoto env response = Normal image ∧ images = [image]).
Proof.
  unfold_handlers. intros Hok.
  repeat case_match; simplify_eq; cbn in Hok; try congruence.
  - match goal with H : method_map _ _ _ = Normal _ |- _ => rename H into Hmap end.
    eexists _, _, _. split; [reflexivity |]. split; [eassumption |]. split; [reflexivity |].
    split; [| intros Hno; congruence].
    intros elems ->. now apply mapC_Forall2.
  - destruct (formatPhoto env response) as [image |] eqn:Hf; cbn in *; [| discriminate].
    simplify_eq.
    eexists _, _, _. split; [reflexivity |]. split; [eassumption |]. split; [reflexivity |].
    split; [intros elems ->; discriminate |].
    intros _. now exists image.
Qed.

End RandomImages.

(** With [count] omitted the sample provider answers the query [one] with a
    single photo: the payload still has the one field [images]. *)
Lemma random_images_shape_witness :
  ∃ (response : jsval) (images : list jsval) (count : number),
    Math_min Sample.env (JNum (Int 1)) 30 = Normal count
    ∧ photos_getRandom Sample.env (JStr "one") JUndefined count = Normal (ApiSuccess response)
    ∧ content (handleGetRandomImage Sample.env (JObj [("query", JStr "one")]) Sample.empty_world).1
      = [ {| type := "text"; text := JSON_stringify [("images", JArr images)] |} ]
    ∧ (∀ elems, response = JArr elems →
         Forall2 (λ photo image, formatPhoto Sample.env photo = Normal image) elems images)
    ∧ (Array_isArray response = false →
         ∃ image, formatPhoto Sample.env response = Normal image ∧ images = [image]).
Proof.
  apply (random_images_shape Sample.env (JObj [("query", JStr "one")]) Sample.empty_world).
  vm_compute. discriminate.
Defined.

(** ** Downloads: the URL that is fetched *)

Section Quality.

Context (env : Env).

(** The [switch] is the lookup of the field named by the quality. *)
Lemma select_url_field (quality urls : jsval) :
  select_url env (with_default quality (JStr "regular")) urls
  = read env urls (url_field quality).
Proof.
  unfold select_url, url_field, qualities.
  destruct quality as [| | b | n | q | l | ps | f]; try reflexivity.
  cbn [with_default strict_eq_str].
  destruct (String.eqb_spec q "raw") as [-> | Hraw]; [reflexivity |].
  destruct (String.eqb_spec q "full") as [-> | Hfull]; [reflexivity |].
  destruct (String.eqb_spec q "small") as [-> | Hsmall]; [reflexivity |].
  destruct (String.eqb_spec q "thumb") as [-> | Hthumb]; [reflexivity |].
  case_bool_decide as Hin; [| reflexivity].
  invert_elem_of; congruence.
Qed.

(** C6. In a [download_image] invocation with [sourceType] [id], a URL that
    is fetched is the field of the looked-up photo's [urls] that the
    requested quality names: the quality itself when it is one of [raw],
    [full], [regular], [small] and [thumb] (so [full] for [full]), and
    [regular] when it is omitted or is anything else. *)
Theorem fetched_url_by_quality (args : jsval) (w : World) (evs : list Event) :
  prop args "sourceType" = JStr "id" →
  added w (handleDownloadImage env args w).2 evs →
  (∀ u, EvFetch u ∈ evs →
     ∃ photo,
       photos_get env (prop args "imageSource") = Normal (ApiSuccess photo)
       ∧ u = prop (prop photo "urls") (url_field (prop args "quality")))
  ∧ (∀ q, q ∈ qualities → url_field (JStr q) = q)
  ∧ (∀ v, (∀ q, q ∈ qualities → v ≠ JStr q) → url_field v = "regular").
Proof.
  intros Hid Hadded. split; [| split].
  - intros u Hu. unfold_handlers. rewrite Hid in *.
    repeat case_match; simplify_eq; cbn [fst snd] in *;
      invert_added; invert_elem_of;
      match goal with
      | H : select_url _ _ _ = Normal _ |- _ => rewrite select_url_field in H
      end;
      invert_reads; eexists; (split; [reflexivity | reflexivity]).
  - intros q Hq. unfold url_field. now rewrite bool_decide_eq_true_2.
  - intros v Hv. unfold url_field. destruct v; try reflexivity.
    case_bool_decide as Hin; [| reflexivity]. now destruct (Hv _ Hin).
Qed.

End Quality.

(** With quality [full] the sample photo is fetched from its [full] URL. *)
Lemma fetched_url_by_quality_witness :
  ∃ photo,
    photos_get Sample.env (JStr "abc") = Normal (ApiSuccess photo)
    ∧ JStr "https://img/full" = prop (prop photo "urls") (url_field (JStr "full")).
Proof.
  apply (proj1 (fetched_url_by_quality Sample.env
                  (Sample.download_args "abc" "id" "/tmp/pics/a.jpg" (JStr "full"))
                  Sample.empty_world
                  [EvExistsSync "/tmp/pics"; EvMkdirSync "/tmp/pics"; EvPhotosGet (JStr "abc");
                   EvTrackDownload (JStr "https://api/abc/download");
                   EvFetch (JStr "https://img/full"); EvBuffer;
                   EvWriteFile "/tmp/pics/a.jpg" Sample.payload]
                  eq_refl eq_refl)).
  repeat (apply elem_of_cons; first [left; reflexivity | right]).
Defined.

(** ** Downloads: tracking *)

Section Tracking.

Context (env : Env).

(** A tracking call that rejects is not an answer carrying an error list: it
    is an exception, caught like any other, and the fetch is not made. *)
Remark tracking_rejection_is_caught (args : jsval) (w : World) (evs : list Event)
    (dest : string) (photo : jsval) (t : Thrown) :
  added w (handleDownloadImage env args w).2 evs →
  prop args "sourceType" = JStr "id" →
  truthy (prop args "imageSource") = true →
  prop args "destinationPath" = JStr dest → dest ≠ EmptyString →
  exists_in (path_dirname env dest) w = true ∨ mkdir_error env (path_dirname env dest) = None →
  photos_get env (prop args "imageSource") = Normal (ApiSuccess photo) →
  nullish photo = false → nullish (prop photo "urls") = false →
  nullish (prop photo "links") = false →
  photos_trackDownload env (prop (prop photo "links") "download_location") = Abrupt t →
  (handleDownloadImage env args w).1
  = error_envelope ("Error downloading image: " ++ error_text t)
  ∧ filter is_fetch evs = [].
Proof.
  intros Hadded Hid Hsrc Hdest Hne Hdir Hget Hphoto Hurls Hlinks Htrack.
  assert (Hargs : nullish args = false) by (apply (prop_defined _ "sourceType"); congruence).
  pose proof (truthy_JStr dest Hne) as Htd.
  unfold_handlers.
  rewrite Hargs, Hsrc, Hid, Hdest, Htd, Hget in *. cbn in Hadded |- *.
  destruct (exists_in (path_dirname env dest) w) eqn:Hex;
    [| destruct Hdir as [Hdir | Hdir]; [discriminate |]; rewrite Hdir in * ];
    cbn in Hadded |- *;
    rewrite (read_defined env photo "urls" Hphoto), select_url_field,
      (read_defined env _ (url_field (prop args "quality")) Hurls),
      (read_defined env photo "links" Hphoto),
      (read_defined env _ "download_location" Hlinks), Htrack in *;
    cbn in Hadded |- *; (split; [reflexivity |]); now invert_added.
Qed.

End Tracking.



(** ** Downloads: the outcome *)

Section Outcome.

Context (env : Env).

(** C7. A [download_image] invocation that succeeds was given a string
    [destinationPath]; its payload has [success] true, that path as
    [filePath], and as file size (the field [fileSize]) the length of the
    bytes that the run's last call wrote to that path and that the file there
    now holds. *)
Theorem download_outcome (args : jsval) (w : World) :
  isError (handleDownloadImage env args w).1 ≠ Some true →
  ∃ (dest : string) (data : list byte),
    prop args "destinationPath" = JStr dest
    ∧ content (handleDownloadImage env args w).1
      = [ {| type := "text";
             text := JSON_stringify
                       [("success", JBool true);
                        ("message", JStr ("Image successfully downloaded to " ++ dest));
                        ("filePath", JStr dest);
                        ("fileSize", JNum (Int (Z.of_nat (length data))))] |} ]
    ∧ files (handleDownloadImage env args w).2 !! dest = Some data
    ∧ ∃ before, log (handleDownloadImage env args w).2 = (before ++ [EvWriteFile dest data])%list.
Proof.
  unfold_handlers. intros Hok.
  repeat case_match; simplify_eq; cbn in Hok; try congruence.
  all: eexists _, _; (split; [first [eassumption | reflexivity] |]); (split; [reflexivity |]);
    (split; [cbn; apply lookup_insert_eq |]); cbn; eexists; reflexivity.
Qed.

End Outcome.

(** The three bytes of the sample payload. *)
Lemma download_outcome_witness :
  ∃ (dest : string) (data : list byte),
    JStr "/tmp/pics/a.jpg" = JStr dest
    ∧ content (handleDownloadImage Sample.env
                 (Sample.download_args "abc" "id" "/tmp/pics/a.jpg" (JStr "full"))
                 Sample.empty_world).1
      = [ {| type := "text";
             text := JSON_stringify
                       [("success", JBool true);
                        ("message", JStr ("Image successfully downloaded to " ++ dest));
                        ("filePath", JStr dest);
                        ("fileSize", JNum (Int (Z.of_nat (length data))))] |} ]
    ∧ files (handleDownloadImage Sample.env
               (Sample.download_args "abc" "id" "/tmp/pics/a.jpg" (JStr "full"))
               Sample.empty_world).2 !! dest = Some data
    ∧ ∃ before,
        log (handleDownloadImage Sample.env
               (Sample.download_args "abc" "id" "/tmp/pics/a.jpg" (JStr "full"))
               Sample.empty_world).2 = (before ++ [EvWriteFile dest data])%list.
Proof.
  apply (download_outcome Sample.env
           (Sample.download_args "abc" "id" "/tmp/pics/a.jpg" (JStr "full"))
           Sample.empty_world).
  vm_compute. discriminate.
Defined.

(** ** Downloads: the destination directory *)

Lemma exists_in_created (p : string) (extra : list string) (w : World) (fs : gmap string (list byte))
    (l : list Event) :
  exists_in p {| dirs := {[ p ]} ∪ list_to_set extra ∪ dirs w; files := fs; log := l |} = true.
Proof.
  unfold exists_in. cbn [dirs]. apply orb_true_iff. left.
  apply bool_decide_eq_true. set_solver.
Qed.

Lemma exists_in_kept (p : string) (w w' : World) :
  dirs w ⊆ dirs w' → dom (files w) ⊆ dom (files w') →
  exists_in p w = true → exists_in p w' = true.
Proof.
  unfold exists_in. intros Hd Hf H.
  apply orb_true_iff in H as [H | H]; apply bool_decide_eq_true in H; apply orb_true_iff.
  - left. apply bool_decide_eq_true. set_solver.
  - right. apply bool_decide_eq_true. apply elem_of_dom. apply elem_of_dom in H. set_solver.
Qed.


Ltac solve_kept :=
  match goal with
  | H : exists_in ?p ?w = true |- exists_in ?p _ = true =>
      apply (exists_in_kept p w); [| | exact H];
      unfold add_event; cbn [dirs files]; rewrite ?dom_insert_L; set_solver
  | |- exists_in ?p _ = true =>
      unfold add_event; cbn [dirs files log];
      first [ apply exists_in_created
            | eapply exists_in_kept; [| | apply exists_in_created];
              cbn [dirs files]; rewrite ?dom_insert_L; set_solver ]
  end.

Section Directory.

Context (env : Env).


End Directory.



(** * Further properties of the server *)

(** ** The catalog and the dispatcher *)

Section Catalog.
Context (env : Env).

(** X1. The names the catalog lists are exactly the names the dispatcher
    answers with an envelope: any other name gets the fault. *)
Theorem catalog_names_are_routed (name : string) (arguments : jsval) (w : World) :
  name ∈ map Tool.name ListTools
  ↔ ∃ e w', CallTool env name arguments w = (inr e, w').
Proof.
  unfold CallTool. cbn [map ListTools Tool.name].
  destruct (String.eqb_spec name "search_images") as [-> | H1].
  { split; [intros _ | intros _; solve_elem_of].
    destruct (handleSearchImages env arguments w); eauto. }
  destruct (String.eqb_spec name "get_random_image") as [-> | H2].
  { split; [intros _ | intros _; solve_elem_of].
    destruct (handleGetRandomImage env arguments w); eauto. }
  destruct (String.eqb_spec name "get_image_by_id") as [-> | H3].
  { split; [intros _ | intros _; solve_elem_of].
    destruct (handleGetImageById env arguments w); eauto. }
  destruct (String.eqb_spec name "download_image") as [-> | H4].
  { split; [intros _ | intros _; solve_elem_of].
    destruct (handleDownloadImage env arguments w); eauto. }
  split.
  - intros Hin. invert_elem_of; congruence.
  - intros (e & w' & H). discriminate H.
Qed.
End Catalog.


Section CatalogSchema.
Context (env : Env).

(** X2. What the catalog declares is what the handlers do: a call through
    the dispatcher that lacks a field its tool's schema lists as required is
    answered by an envelope with [isError] true; the values the schema lists
    for [sourceType] are exactly those that pass the source-type check; each
    quality the schema lists selects the URL field of the same name. *)
Theorem catalog_schema_is_enforced (args : jsval) (w : World) :
  (∀ name field,
     field ∈ schema_required name →
     prop args field = JUndefined →
     ∃ e w', CallTool env name args w = (inr e, w') ∧ isError e = Some true)
  ∧ (∀ v : jsval,
       negb (strict_eq_str v "url") && negb (strict_eq_str v "id") = false
       ↔ ∃ s, s ∈ schema_enum "download_image" "sourceType" ∧ v = JStr s)
  ∧ (∀ q urls,
       q ∈ schema_enum "download_image" "quality" →
       select_url env (JStr q) urls = read env urls q).
Proof.
  split; [| split].
  - intros name field Hreq Hmiss. unfold CallTool.
    unfold schema_required, find_tool in Hreq. cbn [ListTools List.find Tool.name] in Hreq.
    destruct (String.eqb_spec name "search_images") as [-> | H1].
    { cbn in Hreq. invert_elem_of. simplify_eq.
      exists (handleSearchImages env args w).1, (handleSearchImages env args w).2.
      split; [now destruct (handleSearchImages env args w) |].
      unfold_handlers. rewrite Hmiss. now destruct (nullish args). }
    destruct (String.eqb_spec name "get_random_image") as [-> | H2].
    { cbn in Hreq. invert_elem_of. }
    destruct (String.eqb_spec name "get_image_by_id") as [-> | H3].
    { cbn in Hreq. invert_elem_of. simplify_eq.
      exists (handleGetImageById env args w).1, (handleGetImageById env args w).2.
      split; [now destruct (handleGetImageById env args w) |].
      unfold_handlers. rewrite Hmiss. now destruct (nullish args). }
    destruct (String.eqb_spec name "download_image") as [-> | H4];
      [| rewrite !eqb_neq_false in Hreq by congruence; cbn in Hreq; invert_elem_of].
    cbn in Hreq. simplify_eq.
    exists (handleDownloadImage env args w).1, (handleDownloadImage env args w).2.
    split; [now destruct (handleDownloadImage env args w) |].
    unfold_handlers. destruct (nullish args); [reflexivity |].
    invert_elem_of; rewrite Hmiss; cbn; rewrite ?orb_true_r; reflexivity.
  - intros v. unfold schema_enum. cbn. split.
    + intros H. destruct v as [| | b | n | s | l | ps | f]; try discriminate.
      cbn in H. exists s. split; [| reflexivity].
      destruct (String.eqb_spec s "url") as [Hu | Hu]; [rewrite Hu; solve_elem_of |].
      destruct (String.eqb_spec s "id") as [Hi | Hi]; [rewrite Hi; solve_elem_of | discriminate].
    + intros (s & Hs & ->). invert_elem_of; reflexivity.
  - intros q urls Hq. unfold schema_enum in Hq. cbn in Hq.
    invert_elem_of; reflexivity.
Qed.
End CatalogSchema.

(** [get_image_by_id] without its required [id]. *)
Lemma catalog_schema_is_enforced_witness :
  ∃ e w', CallTool Sample.env "get_image_by_id" (JObj []) Sample.empty_world = (inr e, w')
          ∧ isError e = Some true.
Proof.
  apply (proj1 (catalog_schema_is_enforced Sample.env (JObj []) Sample.empty_world)
           "get_image_by_id" "id");
    [apply elem_of_cons; left; reflexivity | reflexivity].
Defined.

(** ** What each handler accepts *)

Lemma validation_nonempty_string (v : jsval) :
  negb (truthy v) || negb (is_string v) = negb (nonempty_string v).
Proof. destruct v as [| | [] | [] | s | | |]; try reflexivity; cbn; try now destruct (_ =? _)%Z.
       now destruct (String.eqb s EmptyString). Qed.

Lemma Math_min_at_most (env : Env) (v : jsval) (n : number) :
  Math_min env v 30 = Normal n → at_most_30 n.
Proof.
  unfold Math_min. destruct (ToNumber env v) as [[z |] |]; cbn; intros H; simplify_eq; cbn;
    [lia | exact I].
Qed.

Section Validation2.
Context (env : Env).

(** X3. [search_images] calls the provider exactly when [query] is a
    non-empty string and the page size converts to a number: that call then
    comes first and carries the query, the page (1 when omitted), the clamped
    page size and the orientation as given, unchecked.  When the conversion
    of [perPage] throws, the error is reported and the provider is not
    called.  Any other [query] of an arguments object is answered by the
    fixed sentence with the world untouched; with no arguments object the
    destructuring error is reported and logged. *)
Theorem search_query_validation (args : jsval) (w : World) (evs : list Event) :
  added w (handleSearchImages env args w).2 evs →
  (nonempty_string (prop args "query") = true →
     (∀ n, Math_min env (with_default (prop args "perPage") (JNum (Int 10))) 30 = Normal n →
        ∃ rest,
          evs = EvSearchGetPhotos (prop args "query")
                  (with_default (prop args "page") (JNum (Int 1))) n
                  (prop args "orientation") :: rest)
     ∧ (∀ t, Math_min env (with_default (prop args "perPage") (JNum (Int 10))) 30 = Abrupt t →
          (handleSearchImages env args w).1
          = error_envelope ("Error searching images: " ++ error_text t)
          ∧ evs = [EvConsoleError "Error in search_images:" t]))
  ∧ (nullish args = false → nonempty_string (prop args "query") = false →
     handleSearchImages env args w
     = (error_envelope "Invalid query. Please provide a search term.", w))
  ∧ (nullish args = true →
     (handleSearchImages env args w).1
     = error_envelope ("Error searching images: " ++ msg_destructure env args)
     ∧ evs = [EvConsoleError "Error in search_images:" (ThrowError (msg_destructure env args))]).
Proof.
  intros Hadded. split; [| split].
  - intros Hq.
    assert (Hargs : nullish args = false).
    { apply (prop_defined _ "query"). intros E. now rewrite E in Hq. }
    unfold_handlers. rewrite Hargs, validation_nonempty_string, Hq in *. cbn in Hadded |- *.
    split.
    + intros n Hn. rewrite Hn in *. cbn in Hadded |- *.
      repeat case_match; simplify_eq; cbn [fst snd] in *; invert_added; eexists; reflexivity.
    + intros t Ht. rewrite Ht in *. cbn in Hadded |- *.
      split; [reflexivity |]. now invert_added.
  - intros Hargs Hq. unfold_handlers.
    now rewrite Hargs, validation_nonempty_string, Hq.
  - intros Hargs. unfold_handlers. rewrite Hargs in *. cbn in Hadded |- *.
    split; [reflexivity |]. now invert_added.
Qed.

(** X4. [get_image_by_id] looks a photo up exactly when [id] is a
    non-empty string; any other [id] is answered by the fixed sentence with
    the world untouched; with no arguments object the destructuring error is
    reported and logged. *)
Theorem image_id_validation (args : jsval) (w : World) (evs : list Event) :
  added w (handleGetImageById env args w).2 evs →
  (nonempty_string (prop args "id") = true →
     ∃ rest, evs = EvPhotosGet (prop args "id") :: rest)
  ∧ (nullish args = false → nonempty_string (prop args "id") = false →
     handleGetImageById env args w
     = (error_envelope "Invalid ID. Please provide a valid Unsplash image ID.", w))
  ∧ (nullish args = true →
     (handleGetImageById env args w).1
     = error_envelope ("Error getting image by ID: " ++ msg_destructure env args)
     ∧ evs = [EvConsoleError "Error in get_image_by_id:" (ThrowError (msg_destructure env args))]).
Proof.
  intros Hadded. split; [| split].
  - intros Hq.
    assert (Hargs : nullish args = false).
    { apply (prop_defined _ "id"). intros E. now rewrite E in Hq. }
    unfold_handlers. rewrite Hargs, validation_nonempty_string, Hq in *. cbn in Hadded |- *.
    repeat case_match; simplify_eq; cbn [fst snd] in *; invert_added; eexists; reflexivity.
  - intros Hargs Hq. unfold_handlers.
    now rewrite Hargs, validation_nonempty_string, Hq.
  - intros Hargs. unfold_handlers. rewrite Hargs in *. cbn in Hadded |- *.
    split; [reflexivity |]. now invert_added.
Qed.

(** X5. [get_random_image] checks no field: with any arguments object whose
    [count] converts to a number its first call is the provider's, with
    [query] and [orientation] as given and the clamped count.  When the
    conversion of [count] throws, the error is reported and the provider is
    not called.  Although no field is required, an invocation without an
    arguments object fails on the destructuring. *)
Theorem random_image_arguments (args : jsval) (w : World) (evs : list Event) :
  added w (handleGetRandomImage env args w).2 evs →
  (nullish args = false →
     (∀ n, Math_min env (with_default (prop args "count") (JNum (Int 1))) 30 = Normal n →
        ∃ rest,
          evs = EvPhotosGetRandom (prop args "query") (prop args "orientation") n :: rest)
     ∧ (∀ t, Math_min env (with_default (prop args "count") (JNum (Int 1))) 30 = Abrupt t →
          (handleGetRandomImage env args w).1
          = error_envelope ("Error getting random image: " ++ error_text t)
          ∧ evs = [EvConsoleError "Error in get_random_image:" t]))
  ∧ (nullish args = true →
     (handleGetRandomImage env args w).1
     = error_envelope ("Error getting random image: " ++ msg_destructure env args)
     ∧ evs = [EvConsoleError "Error in get_random_image:" (ThrowError (msg_destructure env args))]).
Proof.
  intros Hadded. split.
  - intros Hargs. unfold_handlers. rewrite Hargs in *. cbn in Hadded |- *.
    split.
    + intros n Hn. rewrite Hn in *. cbn in Hadded |- *.
      repeat case_match; simplify_eq; cbn [fst snd] in *; invert_added; eexists; reflexivity.
    + intros t Ht. rewrite Ht in *. cbn in Hadded |- *.
      split; [reflexivity |]. now invert_added.
  - intros Hargs. unfold_handlers. rewrite Hargs in *. cbn in Hadded |- *.
    split; [reflexivity |]. now invert_added.
Qed.

(** X6. Whatever is given as [perPage] or [count] (a number, a string,
    null, an object), the page size handed to the provider is never a number
    above 30. *)
Theorem page_size_never_above_30 (args : jsval) (w : World) (evs : list Event) :
  (added w (handleSearchImages env args w).2 evs →
   ∀ q p n o, EvSearchGetPhotos q p n o ∈ evs → at_most_30 n)
  ∧ (added w (handleGetRandomImage env args w).2 evs →
     ∀ q o n, EvPhotosGetRandom q o n ∈ evs → at_most_30 n).
Proof.
  split; intros Hadded; intros; unfold_handlers;
    repeat case_match; simplify_eq; cbn [fst snd] in *;
    invert_added; invert_elem_of; eapply Math_min_at_most; eassumption.
Qed.

End Validation2.

(** An object whose own [toString] is not callable cannot be a page size:
    the provider is not called. *)
Lemma search_query_validation_witness :
  (handleSearchImages Sample.env
     (JObj [("query", JStr "cats"); ("perPage", JObj [("toString", JNum (Int 1))])])
     Sample.empty_world).1
  = error_envelope ("Error searching images: "
                      ++ error_text (ThrowError "Cannot convert object to primitive value"))
  ∧ [EvConsoleError "Error in search_images:"
       (ThrowError "Cannot convert object to primitive value")]
    = [EvConsoleError "Error in search_images:"
         (ThrowError "Cannot convert object to primitive value")].
Proof.
  apply (proj2 (proj1 (search_query_validation Sample.env
                         (JObj [("query", JStr "cats");
                                ("perPage", JObj [("toString", JNum (Int 1))])])
                         Sample.empty_world
                         [EvConsoleError "Error in search_images:"
                            (ThrowError "Cannot convert object to primitive value")]
                         eq_refl) eq_refl)).
  reflexivity.
Defined.

(** A number is not an id. *)
Lemma image_id_validation_witness :
  handleGetImageById Sample.env (JObj [("id", JNum (Int 42))]) Sample.empty_world
  = (error_envelope "Invalid ID. Please provide a valid Unsplash image ID.", Sample.empty_world).
Proof.
  apply (proj1 (proj2 (image_id_validation Sample.env (JObj [("id", JNum (Int 42))])
                         Sample.empty_world [] eq_refl)));
    reflexivity.
Defined.

(** A count that cannot be converted. *)
Lemma random_image_arguments_witness :
  (handleGetRandomImage Sample.env (JObj [("count", JObj [("toString", JNum (Int 1))])])
     Sample.empty_world).1
  = error_envelope ("Error getting random image: "
                      ++ error_text (ThrowError "Cannot convert object to primitive value"))
  ∧ [EvConsoleError "Error in get_random_image:"
       (ThrowError "Cannot convert object to primitive value")]
    = [EvConsoleError "Error in get_random_image:"
         (ThrowError "Cannot convert object to primitive value")].
Proof.
  apply (proj2 (proj1 (random_image_arguments Sample.env
                         (JObj [("count", JObj [("toString", JNum (Int 1))])])
                         Sample.empty_world
                         [EvConsoleError "Error in get_random_image:"
                            (ThrowError "Cannot convert object to primitive value")]
                         eq_refl) eq_refl)).
  reflexivity.
Defined.

(** [null] counts as 0. *)
Lemma page_size_never_above_30_witness : at_most_30 (Int 0).
Proof.
  apply (proj1 (page_size_never_above_30 Sample.env
                  (JObj [("query", JStr "cats"); ("perPage", JNull)]) Sample.empty_world
                  [EvSearchGetPhotos (JStr "cats") (JNum (Int 1)) (Int 0) JUndefined])
           eq_refl (JStr "cats") (JNum (Int 1)) (Int 0) JUndefined).
  apply elem_of_cons. left. reflexivity.
Defined.

(** ** Failures *)

Section Failures.
Context (env : Env).

(** X7. When the provider call of [search_images], [get_random_image] or
    [get_image_by_id] rejects, the handler returns the error envelope made of
    its own opening and the text of what was thrown (the message of an
    [Error], the string form of anything else), and its last call is the
    [console.error] of that value. *)
Theorem rejected_lookup_is_reported (args : jsval) (w : World) (evs : list Event) (t : Thrown) :
  (added w (handleSearchImages env args w).2 evs →
   ∀ q p n o, EvSearchGetPhotos q p n o ∈ evs →
     search_getPhotos env q p n o = Abrupt t →
     (handleSearchImages env args w).1
     = error_envelope ("Error searching images: " ++ error_text t)
     ∧ ∃ before, evs = (before ++ [EvConsoleError "Error in search_images:" t])%list)
  ∧ (added w (handleGetRandomImage env args w).2 evs →
     ∀ q o n, EvPhotosGetRandom q o n ∈ evs →
       photos_getRandom env q o n = Abrupt t →
       (handleGetRandomImage env args w).1
       = error_envelope ("Error getting random image: " ++ error_text t)
       ∧ ∃ before, evs = (before ++ [EvConsoleError "Error in get_random_image:" t])%list)
  ∧ (added w (handleGetImageById env args w).2 evs →
     ∀ id, EvPhotosGet id ∈ evs →
       photos_get env id = Abrupt t →
       (handleGetImageById env args w).1
       = error_envelope ("Error getting image by ID: " ++ error_text t)
       ∧ ∃ before, evs = (before ++ [EvConsoleError "Error in get_image_by_id:" t])%list).
Proof.
  split; [| split]; intros Hadded; intros; unfold_handlers;
    repeat case_match; simplify_eq; cbn [fst snd] in *;
    invert_added; invert_elem_of; same_answer;
    (split; [reflexivity | solve_last]).
Qed.

(** X8. Whichever step of a download throws (creating the directory, the
    lookup, the tracking call, the fetch, reading the body, writing the file)
    the handler returns [Error downloading image: ] followed by the text of
    what was thrown, and its last call is the [console.error] of that value.
    No file has changed if no write was tried; a write that failed leaves
    every other file as it was and the destination either untouched (it
    could not be opened) or created or truncated, holding what the write
    left. *)
Theorem download_failure_is_reported (args : jsval) (w : World) (evs : list Event) (t : Thrown) :
  added w (handleDownloadImage env args w).2 evs →
  (∃ d, EvMkdirSync d ∈ evs ∧ mkdir_error env d = Some t)
  ∨ (∃ id, EvPhotosGet id ∈ evs ∧ photos_get env id = Abrupt t)
  ∨ (∃ loc, EvTrackDownload loc ∈ evs ∧ photos_trackDownload env loc = Abrupt t)
  ∨ (∃ u, EvFetch u ∈ evs ∧ fetch env u = Abrupt t)
  ∨ (∃ u r, EvFetch u ∈ evs ∧ fetch env u = Normal r ∧ EvBuffer ∈ evs ∧ buffer r = Abrupt t)
  ∨ (∃ p data failure,
       EvWriteFile p data ∈ evs ∧ writeFile_error env p = Some failure
       ∧ failure_thrown failure = t) →
  (handleDownloadImage env args w).1
  = error_envelope ("Error downloading image: " ++ error_text t)
  ∧ (∃ before, evs = (before ++ [EvConsoleError "Error in download_image:" t])%list)
  ∧ ((∀ p data, EvWriteFile p data ∉ evs) →
     files (handleDownloadImage env args w).2 = files w)
  ∧ (∀ p data, EvWriteFile p data ∈ evs →
       ∃ failure,
         writeFile_error env p = Some failure
         ∧ files (handleDownloadImage env args w).2 = files_after_failure failure p (files w)).
Proof.
  intros Hadded Hcause. unfold_handlers.
  repeat case_match; simplify_eq; cbn [fst snd] in *; invert_added;
    destruct_causes; invert_elem_of; same_answer; cbn [failure_thrown] in *; simplify_eq;
    (split;
       [ reflexivity
       | split;
         [ solve_last
         | split;
           [ intros Hno; first [ reflexivity | exfalso; eapply Hno; solve_elem_of ]
           | intros p data Hin; invert_elem_of;
             eexists; (split; [eassumption | reflexivity]) ] ] ]).
Qed.

End Failures.

(** A random pick that rejects with a string. *)
Lemma rejected_lookup_is_reported_witness :
  (handleGetRandomImage Faulty.env (JObj []) Sample.empty_world).1
  = error_envelope "Error getting random image: timeout"
  ∧ ∃ before,
      [EvPhotosGetRandom JUndefined JUndefined (Int 1);
       EvConsoleError "Error in get_random_image:" (ThrowValue (JStr "timeout"))]
      = (before ++ [EvConsoleError "Error in get_random_image:" (ThrowValue (JStr "timeout"))])%list.
Proof.
  apply (proj1 (proj2 (rejected_lookup_is_reported Faulty.env (JObj []) Sample.empty_world
                         [EvPhotosGetRandom JUndefined JUndefined (Int 1);
                          EvConsoleError "Error in get_random_image:"
                            (ThrowValue (JStr "timeout"))]
                         (ThrowValue (JStr "timeout"))))
           eq_refl JUndefined JUndefined (Int 1));
    [apply elem_of_cons; left; reflexivity | reflexivity].
Defined.

(** A full disk: the write fails after the file was opened, and leaves it
    empty. *)
Lemma download_failure_is_reported_witness :
  (handleDownloadImage Faulty.env
     (Sample.download_args "https://img/full" "url" "out/a.jpg" JUndefined)
     Sample.empty_world).1
  = error_envelope "Error downloading image: ENOSPC: no space left on device, write"
  ∧ ∃ failure,
      writeFile_error Faulty.env "out/a.jpg" = Some failure
      ∧ files (handleDownloadImage Faulty.env
                 (Sample.download_args "https://img/full" "url" "out/a.jpg" JUndefined)
                 Sample.empty_world).2
        = files_after_failure failure "out/a.jpg" (files Sample.empty_world).
Proof.
  edestruct (download_failure_is_reported Faulty.env
               (Sample.download_args "https://img/full" "url" "out/a.jpg" JUndefined)
               Sample.empty_world
               [EvExistsSync "out"; EvMkdirSync "out"; EvFetch (JStr "https://img/full"); EvBuffer;
                EvWriteFile "out/a.jpg" Sample.payload;
                EvConsoleError "Error in download_image:"
                  (ThrowError "ENOSPC: no space left on device, write")]
               (ThrowError "ENOSPC: no space left on device, write") eq_refl)
    as (Henv & _ & _ & Hfiles).
  { do 5 right. exists "out/a.jpg", Sample.payload,
      (WriteFailed (ThrowError "ENOSPC: no space left on device, write") []).
    split; [solve_elem_of | split; reflexivity]. }
  split; [exact Henv |].
  apply (Hfiles "out/a.jpg" Sample.payload). solve_elem_of.
Defined.

(** ** Projections and payloads *)

Lemma mapC_elements {A B : Type} (f : A → Completion B) (l : list A) (r : list B) :
  mapC f l = Normal r → ∀ x, x ∈ l → ∃ y, f x = Normal y.
Proof.
  revert r. induction l as [| a l IH]; intros r H x Hx; [inversion Hx |].
  cbn in H. destruct (f a) eqn:Ha; cbn in H; [| discriminate].
  destruct (mapC f l) eqn:Hl; cbn in H; [| discriminate].
  apply elem_of_cons in Hx as [-> | Hx]; [eauto | eapply IH; eauto].
Qed.

Lemma prop_nullish (v : jsval) (k : string) : nullish v = true → prop v k = JUndefined.
Proof. now destruct v. Qed.

Section Projection.
Context (env : Env).

Lemma formatPhoto_needs_user_links (photo image : jsval) :
  formatPhoto env photo = Normal image →
  nullish photo = false
  ∧ nullish (prop photo "user") = false
  ∧ nullish (prop (prop photo "user") "links") = false.
Proof.
  unfold formatPhoto, description_of, read. intros H.
  destruct (nullish photo); [discriminate |].
  destruct (nullish (prop photo "user")) eqn:Hu;
    [exfalso; repeat (first [progress cbn in H | case_match]); discriminate |].
  destruct (nullish (prop (prop photo "user") "links")) eqn:Hl;
    [exfalso; repeat (first [progress cbn in H | case_match]); congruence |].
  done.
Qed.

(** X9. The description of a projected photo is never empty, null or
    missing: it is the photo's [description] when that is truthy, else its
    [alt_description] when that is truthy, else [No description]. *)
Theorem description_is_never_empty (photo image : jsval) :
  formatPhoto env photo = Normal image →
  truthy (prop image "description") = true
  ∧ (truthy (prop photo "description") = true →
     prop image "description" = prop photo "description")
  ∧ (truthy (prop photo "description") = false →
     truthy (prop photo "alt_description") = true →
     prop image "description" = prop photo "alt_description")
  ∧ (truthy (prop photo "description") = false →
     truthy (prop photo "alt_description") = false →
     prop image "description" = JStr "No description").
Proof.
  unfold formatPhoto, description_of, read. intros H.
  destruct (nullish photo); [discriminate |]. cbn in H.
  destruct (truthy (prop photo "description")) eqn:Hd; cbn in H;
    [| destruct (truthy (prop photo "alt_description")) eqn:Ha; cbn in H ];
    repeat (first [progress cbn in H | case_match]); simplify_eq; cbn;
    repeat split; congruence.
Qed.

(** X10. A photo can be projected exactly when it, its [user] and its
    [user.links] are neither null nor undefined; every other field may be
    missing. *)
Theorem projection_succeeds_iff (photo : jsval) :
  (∃ image, formatPhoto env photo = Normal image)
  ↔ nullish photo = false
    ∧ nullish (prop photo "user") = false
    ∧ nullish (prop (prop photo "user") "links") = false.
Proof.
  split.
  - intros [image H]. eapply formatPhoto_needs_user_links, H.
  - unfold formatPhoto, description_of, read. intros (-> & Hu & Hl). cbn. repeat (first [progress cbn | case_match]); eauto; congruence.
Qed.

(** X11. A [search_images] invocation that succeeds has the payload
    [total], [total_pages], [images], the first two as the provider gave
    them, the images being the projections of the provider's [results], one
    for each and in order. *)
Theorem search_results_shape (args : jsval) (w : World) :
  isError (handleSearchImages env args w).1 ≠ Some true →
  ∃ (response : jsval) (results images : list jsval) (perPage : number),
    Math_min env (with_default (prop args "perPage") (JNum (Int 10))) 30 = Normal perPage
    ∧ search_getPhotos env (prop args "query")
        (with_default (prop args "page") (JNum (Int 1))) perPage (prop args "orientation")
      = Normal (ApiSuccess response)
    ∧ prop response "results" = JArr results
    ∧ content (handleSearchImages env args w).1
      = [ {| type := "text";
             text := JSON_stringify [("total", prop response "total");
                                     ("total_pages", prop response "total_pages");
                                     ("images", JArr images)] |} ]
    ∧ Forall2 (λ photo image, formatPhoto env photo = Normal image) results images.
Proof.
  unfold_handlers. intros Hok.
  repeat case_match; simplify_eq; cbn in Hok; try congruence.
  invert_reads.
  match goal with H : method_map _ ?r _ = Normal _ |- _ =>
    destruct r eqn:Hr; try discriminate H; apply mapC_Forall2 in H end.
  eexists _, _, _, _. repeat split; eauto.
Qed.

(** X12. A [get_image_by_id] invocation that succeeds has the payload of
    the single field [image], the projection of the photo the provider
    answered with. *)
Theorem image_by_id_shape (args : jsval) (w : World) :
  isError (handleGetImageById env args w).1 ≠ Some true →
  ∃ (photo image : jsval),
    photos_get env (prop args "id") = Normal (ApiSuccess photo)
    ∧ formatPhoto env photo = Normal image
    ∧ content (handleGetImageById env args w).1
      = [ {| type := "text"; text := JSON_stringify [("image", image)] |} ].
Proof.
  unfold_handlers. intros Hok.
  repeat case_match; simplify_eq; cbn in Hok; try congruence.
  eexists _, _. repeat split; eauto.
Qed.

(** X13. One result that cannot be projected fails the whole search: the
    envelope is an error, no partial list is returned, and nothing is called
    after the provider but [console.error]. *)
Theorem search_fails_on_unreadable_result (args : jsval) (w : World) (evs : list Event) :
  added w (handleSearchImages env args w).2 evs →
  ∀ q p n o response results photo,
    EvSearchGetPhotos q p n o ∈ evs →
    search_getPhotos env q p n o = Normal (ApiSuccess response) →
    prop response "results" = JArr results →
    photo ∈ results →
    nullish photo = true ∨ nullish (prop photo "user") = true
    ∨ nullish (prop (prop photo "user") "links") = true →
    ∃ t,
      (handleSearchImages env args w).1
      = error_envelope ("Error searching images: " ++ error_text t)
      ∧ evs = [EvSearchGetPhotos q p n o; EvConsoleError "Error in search_images:" t].
Proof.
  intros Hadded q p n o response results photo Hin Hans Hres Hphoto Hbad.
  unfold_handlers.
  repeat case_match; simplify_eq; cbn [fst snd] in *;
    invert_added; invert_elem_of; same_answer; invert_reads;
    try (rewrite prop_nullish in Hres by assumption; discriminate Hres).
  - exfalso.
    match goal with H : method_map _ _ _ = Normal _ |- _ =>
      rewrite Hres in H; unfold method_map in H;
      pose proof (mapC_elements _ _ _ H photo Hphoto) as [image Himage] end.
    apply formatPhoto_needs_user_links in Himage as (Hp1 & Hp2 & Hp3).
    destruct Hbad as [Hbad | [Hbad | Hbad]]; congruence.
  - eexists. split; reflexivity.
Qed.

End Projection.

(** The sample photo has no description of its own. *)
Lemma description_is_never_empty_witness :
  ∃ image,
    formatPhoto Sample.env Sample.photo = Normal image
    ∧ truthy (prop image "description") = true
    ∧ prop image "description" = JStr "a cat".
Proof.
  destruct (formatPhoto Sample.env Sample.photo) as [image |] eqn:E; [| discriminate E].
  exists image. split; [reflexivity |].
  destruct (description_is_never_empty Sample.env Sample.photo image E) as (H1 & _ & H3 & _).
  split; [exact H1 | exact (H3 eq_refl eq_refl)].
Defined.

(** The one sample result. *)
Lemma search_results_shape_witness :
  ∃ (response : jsval) (results images : list jsval) (perPage : number),
    Math_min Sample.env (JNum (Int 10)) 30 = Normal perPage
    ∧ search_getPhotos Sample.env (JStr "cats") (JNum (Int 1)) perPage JUndefined
      = Normal (ApiSuccess response)
    ∧ prop response "results" = JArr results
    ∧ content (handleSearchImages Sample.env (JObj [("query", JStr "cats")])
                 Sample.empty_world).1
      = [ {| type := "text";
             text := JSON_stringify [("total", prop response "total");
                                     ("total_pages", prop response "total_pages");
                                     ("images", JArr images)] |} ]
    ∧ Forall2 (λ photo image, formatPhoto Sample.env photo = Normal image) results images.
Proof.
  apply (search_results_shape Sample.env (JObj [("query", JStr "cats")]) Sample.empty_world).
  vm_compute. discriminate.
Defined.

Lemma image_by_id_shape_witness :
  ∃ (photo image : jsval),
    photos_get Sample.env (JStr "abc") = Normal (ApiSuccess photo)
    ∧ formatPhoto Sample.env photo = Normal image
    ∧ content (handleGetImageById Sample.env (JObj [("id", JStr "abc")]) Sample.empty_world).1
      = [ {| type := "text"; text := JSON_stringify [("image", image)] |} ].
Proof.
  apply (image_by_id_shape Sample.env (JObj [("id", JStr "abc")]) Sample.empty_world).
  vm_compute. discriminate.
Defined.

(** The second result of the failing provider has no [user]. *)
Lemma search_fails_on_unreadable_result_witness :
  ∃ t,
    (handleSearchImages Faulty.env (JObj [("query", JStr "cats")]) Sample.empty_world).1
    = error_envelope ("Error searching images: " ++ error_text t)
    ∧ [EvSearchGetPhotos (JStr "cats") (JNum (Int 1)) (Int 10) JUndefined;
       EvConsoleError "Error in search_images:"
         (ThrowError "Cannot read properties of undefined (reading 'name')")]
      = [EvSearchGetPhotos (JStr "cats") (JNum (Int 1)) (Int 10) JUndefined;
         EvConsoleError "Error in search_images:" t].
Proof.
  apply (search_fails_on_unreadable_result Faulty.env (JObj [("query", JStr "cats")])
           Sample.empty_world
           [EvSearchGetPhotos (JStr "cats") (JNum (Int 1)) (Int 10) JUndefined;
            EvConsoleError "Error in search_images:"
              (ThrowError "Cannot read properties of undefined (reading 'name')")]
           eq_refl (JStr "cats") (JNum (Int 1)) (Int 10) JUndefined
           (JObj [("total", JNum (Int 2)); ("total_pages", JNum (Int 1));
                  ("results", JArr [Sample.photo; Faulty.bare_photo])])
           [Sample.photo; Faulty.bare_photo] Faulty.bare_photo);
    [solve_elem_of | reflexivity | reflexivity | solve_elem_of | right; left; reflexivity].
Defined.

(** ** Calls and effects *)

Section ReadOnly.
Context (env : Env).

(** X14. The three look-up handlers leave the file system as it was, make
    no file-system call and no fetch, and call the provider at most once. *)
Theorem lookups_are_read_only (args : jsval) (w : World) :
  (dirs (handleSearchImages env args w).2 = dirs w
   ∧ files (handleSearchImages env args w).2 = files w
   ∧ ∃ evs, added w (handleSearchImages env args w).2 evs
            ∧ filter is_fs_call evs = [] ∧ filter is_fetch evs = []
            ∧ (length (filter is_provider_call evs) ≤ 1)%nat)
  ∧ (dirs (handleGetRandomImage env args w).2 = dirs w
     ∧ files (handleGetRandomImage env args w).2 = files w
     ∧ ∃ evs, added w (handleGetRandomImage env args w).2 evs
              ∧ filter is_fs_call evs = [] ∧ filter is_fetch evs = []
              ∧ (length (filter is_provider_call evs) ≤ 1)%nat)
  ∧ (dirs (handleGetImageById env args w).2 = dirs w
     ∧ files (handleGetImageById env args w).2 = files w
     ∧ ∃ evs, added w (handleGetImageById env args w).2 evs
              ∧ filter is_fs_call evs = [] ∧ filter is_fetch evs = []
              ∧ (length (filter is_provider_call evs) ≤ 1)%nat).
Proof.
  split; [| split]; unfold_handlers;
    repeat case_match; simplify_eq; cbn [fst snd];
    (split; [reflexivity |]); (split; [reflexivity |]);
    eexists; (split; [solve_counts |]); cbn; repeat split; count_calls.
Qed.

(** X15. A download tries nothing twice: at most one directory creation,
    one tracking call, one fetch, one read of the body, one write, one
    [console.error], and at most two provider calls in all. *)
Theorem download_calls_at_most_once (args : jsval) (w : World) (evs : list Event) :
  added w (handleDownloadImage env args w).2 evs →
  (length (filter is_mkdir evs) ≤ 1)%nat
  ∧ (length (filter is_provider_call evs) ≤ 2)%nat
  ∧ (length (filter is_tracking evs) ≤ 1)%nat
  ∧ (length (filter is_fetch evs) ≤ 1)%nat
  ∧ (length (filter is_buffer evs) ≤ 1)%nat
  ∧ (length (filter is_write evs) ≤ 1)%nat
  ∧ (length (filter is_console_error evs) ≤ 1)%nat.
Proof.
  intros Hadded. unfold_handlers.
  repeat case_match; simplify_eq; cbn [fst snd] in *; invert_added;
    cbn; repeat split; count_calls.
Qed.

End ReadOnly.

Lemma download_calls_at_most_once_witness :
  (length (filter is_mkdir
             [EvExistsSync "/tmp/pics"; EvMkdirSync "/tmp/pics"; EvPhotosGet (JStr "abc");
              EvTrackDownload (JStr "https://api/abc/download");
              EvFetch (JStr "https://img/full"); EvBuffer;
              EvWriteFile "/tmp/pics/a.jpg" Sample.payload]) ≤ 1)%nat.
Proof.
  apply (download_calls_at_most_once Sample.env
           (Sample.download_args "abc" "id" "/tmp/pics/a.jpg" (JStr "full"))
           Sample.empty_world
           [EvExistsSync "/tmp/pics"; EvMkdirSync "/tmp/pics"; EvPhotosGet (JStr "abc");
            EvTrackDownload (JStr "https://api/abc/download");
            EvFetch (JStr "https://img/full"); EvBuffer;
            EvWriteFile "/tmp/pics/a.jpg" Sample.payload]
           eq_refl).
Defined.


Section DownloadEffects.
Context (env : Env).

(** X16. A download removes no directory and creates none but the
    destination's directory and its ancestors; it changes no file but the one
    at [destinationPath]; and when it returns an error envelope it has
    changed no file at all, unless the write itself failed after opening the
    destination, which is then left created or truncated. *)
Theorem download_writes_only_destination (args : jsval) (w : World) :
  dirs w ⊆ dirs (handleDownloadImage env args w).2
  ∧ (∀ d, d ∈ dirs (handleDownloadImage env args w).2 →
       d ∈ dirs w
       ∨ ∃ dest, prop args "destinationPath" = JStr dest
                 ∧ d ∈ path_dirname env dest
                       :: ancestors env (String.length (path_dirname env dest))
                            (path_dirname env dest))
  ∧ (∀ p, prop args "destinationPath" ≠ JStr p →
       files (handleDownloadImage env args w).2 !! p = files w !! p)
  ∧ (isError (handleDownloadImage env args w).1 = Some true →
     files (handleDownloadImage env args w).2 = files w
     ∨ ∃ dest t remains,
         prop args "destinationPath" = JStr dest
         ∧ writeFile_error env dest = Some (WriteFailed t remains)
         ∧ files (handleDownloadImage env args w).2 = <[ dest := remains ]> (files w)).
Proof.
  unfold_handlers. unfold dirname.
  repeat case_match; simplify_eq; cbn [fst snd add_event dirs files isError error_envelope success_envelope];
    (split; [set_solver |]);
    (split;
       [intros d Hd;
        first [ now left
              | apply elem_of_union in Hd as [Hnew | Hold];
                [right; eexists; split; [reflexivity | set_solver] | now left] ] |]);
    (split; [intros p Hp; first [ reflexivity | apply lookup_insert_ne; congruence ] |]);
    first [ intros; discriminate
          | intros; left; reflexivity
          | intros; right; eexists _, _, _;
            split; [reflexivity | split; [eassumption | reflexivity]] ].
Qed.

End DownloadEffects.

(** ** Edges of a download *)

Section DownloadEdges.
Context (env : Env).

(** X17. When the fetch answers with a status that is not ok, the envelope
    is [Failed to download image: ] followed by the status code and the
    status text, the fetch is the run's last call (the body is not read,
    nothing is written, nothing is logged) and no file has changed. *)
Theorem failed_fetch_writes_nothing (args : jsval) (w : World) (evs : list Event) :
  added w (handleDownloadImage env args w).2 evs →
  ∀ u r, EvFetch u ∈ evs → fetch env u = Normal r → ok r = false →
    (handleDownloadImage env args w).1
    = error_envelope ("Failed to download image: " ++ Z_to_string (status r)
                        ++ " " ++ statusText r)
    ∧ (∃ before, evs = (before ++ [EvFetch u])%list)
    ∧ files (handleDownloadImage env args w).2 = files w.
Proof.
  intros Hadded u r Hu Hfetch Hok. unfold_handlers.
  repeat case_match; simplify_eq; cbn [fst snd] in *; invert_added;
    invert_elem_of; same_answer;
    try match goal with H : negb (ok _) = false |- _ => rewrite Hok in H; discriminate H end;
    (split; [reflexivity | split; [solve_last | reflexivity]]).
Qed.

(** X18. With [sourceType] [url] the quality plays no part: two requests
    that differ only in [quality] give the same envelope and the same
    world. *)
Theorem url_download_ignores_quality (args args' : jsval) (w : World) :
  (∀ k, k ≠ "quality" → prop args k = prop args' k) →
  prop args "sourceType" = JStr "url" →
  handleDownloadImage env args w = handleDownloadImage env args' w.
Proof.
  intros Hsame Hurl.
  assert (Hargs : nullish args = false) by (apply (prop_defined _ "sourceType"); congruence).
  assert (Hargs' : nullish args' = false).
  { apply (prop_defined _ "sourceType"). rewrite <- Hsame by discriminate. congruence. }
  unfold_handlers.
  rewrite Hargs, Hargs', <- !Hsame by discriminate. rewrite Hurl. cbn.
  reflexivity.
Qed.

(** X19. A download request whose three required fields are truthy but
    whose [sourceType] is neither [url] nor [id] is answered by the fixed
    sentence, and nothing at all is called. *)
Theorem invalid_sourceType_is_rejected (args : jsval) (w : World) :
  truthy (prop args "imageSource") = true →
  truthy (prop args "sourceType") = true →
  truthy (prop args "destinationPath") = true →
  prop args "sourceType" ≠ JStr "url" → prop args "sourceType" ≠ JStr "id" →
  handleDownloadImage env args w = (error_envelope invalid_sourceType_message, w).
Proof.
  intros Hsrc Hst Hdt Hurl Hid.
  assert (Hargs : nullish args = false).
  { apply (prop_defined _ "sourceType"). intros E. now rewrite E in Hst. }
  assert (Hv : negb (strict_eq_str (prop args "sourceType") "url")
               && negb (strict_eq_str (prop args "sourceType") "id") = true).
  { destruct (prop args "sourceType") as [| | b | n | s | l | ps | f]; try reflexivity.
    cbn. destruct (String.eqb_spec s "url") as [E | _]; [congruence |].
    destruct (String.eqb_spec s "id") as [E | _]; [congruence | reflexivity]. }
  unfold_handlers. now rewrite Hargs, Hsrc, Hst, Hdt, Hv.
Qed.

(** X20. A truthy [destinationPath] that is not a string passes both
    validation steps and then fails in [path.dirname]: the envelope reports
    that error, and apart from its [console.error] nothing is called. *)
Theorem non_string_destination_is_rejected (args : jsval) (w : World) :
  truthy (prop args "imageSource") = true →
  prop args "sourceType" = JStr "url" ∨ prop args "sourceType" = JStr "id" →
  truthy (prop args "destinationPath") = true →
  is_string (prop args "destinationPath") = false →
  handleDownloadImage env args w
  = (error_envelope ("Error downloading image: "
                       ++ msg_path_type env (prop args "destinationPath")),
     add_event (EvConsoleError "Error in download_image:"
                  (ThrowError (msg_path_type env (prop args "destinationPath")))) w).
Proof.
  intros Hsrc Htype Hdt Hns.
  assert (Hargs : nullish args = false).
  { apply (prop_defined _ "destinationPath"). intros E. now rewrite E in Hdt. }
  assert (Hst : truthy (prop args "sourceType") = true)
    by (destruct Htype as [-> | ->]; reflexivity).
  assert (Hv : negb (strict_eq_str (prop args "sourceType") "url")
               && negb (strict_eq_str (prop args "sourceType") "id") = false)
    by (destruct Htype as [-> | ->]; reflexivity).
  unfold_handlers. rewrite Hargs, Hsrc, Hst, Hdt, Hv. cbn.
  unfold dirname. destruct (prop args "destinationPath"); try discriminate Hns; reflexivity.
Qed.

End DownloadEdges.

(** The sample host answers 404 for [https://gone]. *)
Lemma failed_fetch_writes_nothing_witness :
  (handleDownloadImage Sample.env
     (Sample.download_args "https://gone" "url" "out/a.jpg" JUndefined) Sample.empty_world).1
  = error_envelope "Failed to download image: 404 Not Found"
  ∧ (∃ before,
       [EvExistsSync "out"; EvMkdirSync "out"; EvFetch (JStr "https://gone")]
       = (before ++ [EvFetch (JStr "https://gone")])%list)
  ∧ files (handleDownloadImage Sample.env
             (Sample.download_args "https://gone" "url" "out/a.jpg" JUndefined)
             Sample.empty_world).2 = files Sample.empty_world.
Proof.
  apply (failed_fetch_writes_nothing Sample.env
           (Sample.download_args "https://gone" "url" "out/a.jpg" JUndefined) Sample.empty_world
           [EvExistsSync "out"; EvMkdirSync "out"; EvFetch (JStr "https://gone")]
           eq_refl (JStr "https://gone")
           {| ok := false; status := 404; statusText := "Not Found"; buffer := Normal [] |});
    [solve_elem_of | reflexivity | reflexivity].
Defined.

Lemma url_download_ignores_quality_witness :
  handleDownloadImage Sample.env
    (Sample.download_args "https://img/full" "url" "out/a.jpg" (JStr "thumb")) Sample.empty_world
  = handleDownloadImage Sample.env
      (Sample.download_args "https://img/full" "url" "out/a.jpg" JUndefined) Sample.empty_world.
Proof.
  apply (url_download_ignores_quality Sample.env); [| reflexivity].
  intros k Hk. unfold Sample.download_args, prop, lookup_prop.
  repeat case_match; try reflexivity.
  exfalso. apply Hk. symmetry. now apply String.eqb_eq.
Defined.

Lemma invalid_sourceType_is_rejected_witness :
  handleDownloadImage Sample.env
    (Sample.download_args "abc" "file" "out/a.jpg" JUndefined) Sample.empty_world
  = (error_envelope invalid_sourceType_message, Sample.empty_world).
Proof.
  apply (invalid_sourceType_is_rejected Sample.env
           (Sample.download_args "abc" "file" "out/a.jpg" JUndefined) Sample.empty_world);
    [reflexivity | reflexivity | reflexivity | discriminate | discriminate].
Defined.

(** A number as destination. *)
Lemma non_string_destination_is_rejected_witness :
  (handleDownloadImage Sample.env
     (JObj [("imageSource", JStr "abc"); ("sourceType", JStr "id");
            ("destinationPath", JNum (Int 5))]) Sample.empty_world).1
  = error_envelope "Error downloading image: The path argument must be of type string".
Proof.
  exact (f_equal fst
           (non_string_destination_is_rejected Sample.env
              (JObj [("imageSource", JStr "abc"); ("sourceType", JStr "id");
                     ("destinationPath", JNum (Int 5))]) Sample.empty_world
              eq_refl (or_intror eq_refl) eq_refl eq_refl)).
Defined.

(** ** The destination directory, again *)

Lemma validation_passed (args : jsval) :
  negb (truthy (prop args "imageSource"))
  || negb (truthy (prop args "sourceType"))
  || negb (truthy (prop args "destinationPath")) = false →
  negb (strict_eq_str (prop args "sourceType") "url")
  && negb (strict_eq_str (prop args "sourceType") "id") = false →
  passes_validation args.
Proof.
  intros H1 H2.
  apply orb_false_iff in H1 as [H1 Hc]. apply orb_false_iff in H1 as [Ha Hb].
  apply negb_false_iff in Ha, Hb, Hc.
  repeat split; try assumption.
  destruct (prop args "sourceType") as [| | b | n | s | l | ps | f]; try discriminate H2.
  cbn in H2.
  destruct (String.eqb_spec s "url") as [-> | _]; [now left |].
  destruct (String.eqb_spec s "id") as [-> | _]; [now right | discriminate H2].
Qed.

Section Rerun.
Context (env : Env).

Lemma directory_lookup_facts (args : jsval) (w : World) (evs : list Event) :
  added w (handleDownloadImage env args w).2 evs →
  (∀ d, EvExistsSync d ∈ evs →
     passes_validation args
     ∧ ∃ dest, prop args "destinationPath" = JStr dest ∧ d = path_dirname env dest)
  ∧ (∀ d, EvMkdirSync d ∈ evs → exists_in d w = false ∧ EvExistsSync d ∈ evs)
  ∧ ((∀ d', EvMkdirSync d' ∈ evs → mkdir_error env d' = None) →
     ∀ d, EvExistsSync d ∈ evs → exists_in d (handleDownloadImage env args w).2 = true).
Proof.
  intros Hadded. unfold_handlers. unfold dirname in *.
  repeat case_match; simplify_eq; cbn [fst snd] in *; invert_added; normalize_exists;
    (split;
       [ intros d Hd; invert_elem_of;
         (split; [apply validation_passed; congruence | eexists; split; [first [eassumption | reflexivity] | reflexivity]])
       | split;
         [ intros d Hd; invert_elem_of; (split; [assumption | solve_elem_of])
         | intros Hmk d Hd; invert_elem_of;
           first [ exfalso;
                   match goal with
                   | H : mkdir_error env ?d = Some _ |- _ =>
                       rewrite Hmk in H by solve_elem_of; discriminate H
                   end
                 | solve_kept ] ] ]).
Qed.

(** X21. A directory is created only if the look-up found nothing at its
    path, and only the directory of [destinationPath]. *)
Theorem mkdir_only_when_absent (args : jsval) (w : World) (evs : list Event) :
  added w (handleDownloadImage env args w).2 evs →
  ∀ d, EvMkdirSync d ∈ evs →
    exists_in d w = false
    ∧ ∃ dest, prop args "destinationPath" = JStr dest ∧ d = path_dirname env dest.
Proof.
  intros Hadded d Hd.
  destruct (directory_lookup_facts args w evs Hadded) as (Hlook & Hmk & _).
  destruct (Hmk d Hd) as [Habsent Hlooked].
  split; [exact Habsent | apply (Hlook d Hlooked)].
Qed.

(** X22. Running the same download request again on the world the first
    run left, when no directory creation failed in the first run, creates no
    directory: an existing directory is never an error. *)
Theorem rerun_creates_no_directory (args : jsval) (w : World) (evs1 evs2 : list Event) :
  added w (handleDownloadImage env args w).2 evs1 →
  added (handleDownloadImage env args w).2
    (handleDownloadImage env args (handleDownloadImage env args w).2).2 evs2 →
  (∀ d, EvMkdirSync d ∈ evs1 → mkdir_error env d = None) →
  ∀ d, EvMkdirSync d ∉ evs2.
Proof.
  intros H1 H2 Hfine d Hd.
  destruct (directory_lookup_facts args _ evs2 H2) as (Hlook2 & Hmk2 & _).
  destruct (Hmk2 d Hd) as [Habsent Hlooked2].
  destruct (Hlook2 d Hlooked2) as (Hvalid & dest & Hdest & ->).
  destruct (directory_lookup_facts args w evs1 H1) as (_ & _ & Hkept).
  assert (Hlooked1 : EvExistsSync (path_dirname env dest) ∈ evs1).
  { clear Hkept Hfine H2 Hmk2 Hlook2 Hd Hlooked2 Habsent.
    destruct Hvalid as (Hsrc & Hst & Hdt & Htype).
    assert (Hargs : nullish args = false)
      by (apply (prop_defined _ "destinationPath"); congruence).
    assert (Hv : negb (strict_eq_str (prop args "sourceType") "url")
                 && negb (strict_eq_str (prop args "sourceType") "id") = false)
      by (destruct Htype as [-> | ->]; reflexivity).
    unfold_handlers. rewrite Hargs, Hsrc, Hst, Hdt, Hv in H1. rewrite Hdest in H1.
    cbn in H1.
    repeat case_match; simplify_eq; cbn [fst snd] in *; invert_added; solve_elem_of. }
  rewrite (Hkept Hfine _ Hlooked1) in Habsent. discriminate Habsent.
Qed.

End Rerun.

Lemma mkdir_only_when_absent_witness :
  exists_in "/tmp/pics" Sample.empty_world = false
  ∧ ∃ dest, JStr "/tmp/pics/a.jpg" = JStr dest ∧ "/tmp/pics" = path_dirname Sample.env dest.
Proof.
  apply (mkdir_only_when_absent Sample.env
           (Sample.download_args "abc" "id" "/tmp/pics/a.jpg" (JStr "full"))
           Sample.empty_world
           [EvExistsSync "/tmp/pics"; EvMkdirSync "/tmp/pics"; EvPhotosGet (JStr "abc");
            EvTrackDownload (JStr "https://api/abc/download");
            EvFetch (JStr "https://img/full"); EvBuffer;
            EvWriteFile "/tmp/pics/a.jpg" Sample.payload]
           eq_refl "/tmp/pics").
  solve_elem_of.
Defined.

(** The second run of the sample download. *)
Lemma rerun_creates_no_directory_witness :
  EvMkdirSync "/tmp/pics"
  ∉ [EvExistsSync "/tmp/pics"; EvPhotosGet (JStr "abc");
     EvTrackDownload (JStr "https://api/abc/download");
     EvFetch (JStr "https://img/full"); EvBuffer;
     EvWriteFile "/tmp/pics/a.jpg" Sample.payload].
Proof.
  apply (rerun_creates_no_directory Sample.env
           (Sample.download_args "abc" "id" "/tmp/pics/a.jpg" (JStr "full"))
           Sample.empty_world
           [EvExistsSync "/tmp/pics"; EvMkdirSync "/tmp/pics"; EvPhotosGet (JStr "abc");
            EvTrackDownload (JStr "https://api/abc/download");
            EvFetch (JStr "https://img/full"); EvBuffer;
            EvWriteFile "/tmp/pics/a.jpg" Sample.payload]
           [EvExistsSync "/tmp/pics"; EvPhotosGet (JStr "abc");
            EvTrackDownload (JStr "https://api/abc/download");
            EvFetch (JStr "https://img/full"); EvBuffer;
            EvWriteFile "/tmp/pics/a.jpg" Sample.payload]
           eq_refl eq_refl).
  intros d Hd. invert_elem_of. reflexivity.
Defined.
